(** * Vendor relay: guards, signature codec and identity redaction

    A shallow embedding of [apps/vendor-relay/src/main.py].  Python [str]
    values are sequences of code points, [bytes] values are sequences of
    octets, dictionaries are insertion-ordered association lists, and the
    objects that the redaction routine copies and updates live in an explicit
    store so that aliasing between the caller's payload and the result is
    visible. *)

From Stdlib Require Import ZArith NArith Strings.String Strings.Ascii Strings.Byte.
From Stdlib Require Import Numbers.DecimalString.
From stdpp Require Import base option list gmap.
From Equations Require Import Equations.

Local Open Scope Z_scope.

(** ** Python strings and bytes *)

(** A Python [str]: a sequence of Unicode code points. *)
Definition pystr : Type := list N.

(** A Python [bytes] object. *)
Definition pybytes : Type := list byte.

(** String literals of the source, written as Rocq strings. *)
Definition str (s : string) : pystr := N_of_ascii <$> list_ascii_of_string s.

#[global] Instance byte_eq_dec : EqDecision byte.
Proof.
  intros a b. refine (cast_if (decide (Byte.to_N a = Byte.to_N b))).
  - abstract (apply (inj Some); rewrite <-!Byte.of_to_N; congruence).
  - abstract congruence.
Defined.

(** Bytes literals. *)
Definition bytes (s : string) : pybytes := list_byte_of_string s.

(** [str(n)] for an integer. *)
Definition str_of_int (n : Z) : pystr :=
  str (DecimalString.NilZero.string_of_int (Z.to_int n)).

(** [needle in haystack] on [str]: some suffix of the haystack starts with the
    needle. *)
Fixpoint starts_with (needle hay : pystr) : bool :=
  match needle, hay with
  | [], _ => true
  | _ :: _, [] => false
  | a :: needle', b :: hay' => bool_decide (a = b) && starts_with needle' hay'
  end.

Fixpoint str_contains (needle hay : pystr) : bool :=
  starts_with needle hay ||
  match hay with
  | [] => false
  | _ :: hay' => str_contains needle hay'
  end.

(** [s.replace(old, new)] for a non-empty [old]: scan from the left, replace
    each match and continue after it. *)
Equations? str_replace (old new s : pystr) : pystr by wf (length s) lt :=
  str_replace old new [] := [];
  str_replace old new (c :: s') with starts_with old (c :: s') => {
    | true := new ++ str_replace old new (drop (pred (length old)) s');
    | false := c :: str_replace old new s' }.
Proof.
  all: simpl; rewrite ?length_drop; lia.
Qed.

(** ** JSON payloads *)

(** The values a decoded JSON document is made of.  A float is carried as its
    bit pattern: the relay never inspects numbers. *)
#[warnings="-register-all"] Inductive json : Type :=
| JNull
| JBool (b : bool)
| JInt (n : Z)
| JFloat (bits : Z)
| JStr (s : pystr)
| JList (items : list json)
| JDict (items : list (pystr * json)).

(** A Python [dict] with [str] keys, in insertion order. *)
Definition dict : Type := list (pystr * json).

Definition is_dict (v : json) : bool :=
  match v with JDict _ => true | _ => false end.

(** [d.get(key)] *)
Fixpoint dict_get (key : pystr) (items : dict) : option json :=
  match items with
  | [] => None
  | (k, v) :: rest => if decide (k = key) then Some v else dict_get key rest
  end.

(** A position inside a payload: the keys and list indices that lead to it. *)
Inductive selector : Type :=
| Key (key : pystr)
| Index (i : nat).

Fixpoint at_path (path : list selector) (v : json) : option json :=
  match path with
  | [] => Some v
  | Key key :: path' =>
      match v with
      | JDict items => dict_get key items ≫= at_path path'
      | _ => None
      end
  | Index i :: path' =>
      match v with
      | JList items => items !! i ≫= at_path path'
      | _ => None
      end
  end.

Section json_induction.
Variable P : json → Prop.
Hypothesis Hnull : P JNull.
Hypothesis Hbool : ∀ b, P (JBool b).
Hypothesis Hint : ∀ n, P (JInt n).
Hypothesis Hfloat : ∀ bits, P (JFloat bits).
Hypothesis Hstr : ∀ s, P (JStr s).
Hypothesis Hlist : ∀ items, Forall P items → P (JList items).
Hypothesis Hdict : ∀ items, Forall (λ kv, P kv.2) items → P (JDict items).

Fixpoint json_nested_ind (v : json) : P v :=
  match v with
  | JNull => Hnull
  | JBool b => Hbool b
  | JInt n => Hint n
  | JFloat bits => Hfloat bits
  | JStr s => Hstr s
  | JList items =>
      Hlist items
        ((fix go (l : list json) : Forall P l :=
            match l with
            | [] => Forall_nil_2 P
            | x :: l' => Forall_cons_2 P x l' (json_nested_ind x) (go l')
            end) items)
  | JDict items =>
      Hdict items
        ((fix go (l : list (pystr * json)) : Forall (λ kv, P kv.2) l :=
            match l with
            | [] => Forall_nil_2 _
            | (k, x) :: l' =>
                Forall_cons_2 (λ kv, P kv.2) (k, x) l' (json_nested_ind x) (go l')
            end) items)
  end.
End json_induction.

(** ** Identity redaction: [sanitize_vendor_data] *)

Definition vendor_fields : list pystr :=
  [ str "vendor_id"; str "customerscout_id"; str "cs_id"; str "vendor_name";
    str "vendor_email"; str "vendor_phone"; str "vendor_contact"; str "cs_" ].

Definition vendor_display_name : pystr := str "CustomerScout".
Definition platform_display_name : pystr := str "Rylie SEO".

Section redaction.
(** [str.lower] of the Python runtime. *)
Variable lower : pystr → pystr.

(** [any(field in key.lower() for field in vendor_fields)] *)
Definition is_vendor_key (key : pystr) : bool :=
  existsb (λ field, str_contains field (lower key)) vendor_fields.

(** The loop of [sanitize_vendor_data] over the entries of the copied
    dictionary: an entry whose key carries a vendor term is deleted, any
    other entry keeps its place and receives [on_value value]. *)
Definition sanitize_items (on_value : json → json) : dict → dict :=
  fix loop (items : dict) : dict :=
    match items with
    | [] => []
    | (key, value) :: rest =>
        if is_vendor_key key then loop rest
        else (key, on_value value) :: loop rest
    end.

(** What the loop stores under a key it keeps: the [elif] chain on the type
    of the value.  A nested dictionary is sanitized by the recursive call, a
    list is rebuilt only when all its items are dictionaries. *)
Fixpoint sanitize_value (value : json) : json :=
  match value with
  | JStr s => JStr (str_replace vendor_display_name platform_display_name s)
  | JDict items => JDict (sanitize_items sanitize_value items)
  | JList items =>
      if forallb is_dict items then JList (map sanitize_value items)
      else value
  | _ => value
  end.

Definition sanitize_vendor_data (data : dict) : dict :=
  sanitize_items sanitize_value data.

(** The specification's reading of a key that names the vendor: lower-cased,
    it contains one of the markers [vendor], [cs_] or [customerscout].  This
    follows the words of the specification, not the list of the code. *)
Definition vendor_identity_markers : list pystr :=
  [ str "vendor"; str "cs_"; str "customerscout" ].

Definition has_vendor_marker (key : pystr) : bool :=
  existsb (λ marker, str_contains marker (lower key)) vendor_identity_markers.

(** The positions the routine visits: the entries of the payload, of the
    dictionaries nested in it, and of the dictionaries in lists made of
    dictionaries only.  [free_of_vendor_identity] holds when none of them has
    a marker of the specification in its key or the vendor's display name in
    a string value. *)
Fixpoint free_of_vendor_identity_value (value : json) : bool :=
  match value with
  | JStr s => negb (str_contains vendor_display_name s)
  | JDict items =>
      forallb (λ kv, match kv with
                     | (key, v) =>
                         negb (has_vendor_marker key) && free_of_vendor_identity_value v
                     end) items
  | JList items =>
      if forallb is_dict items then forallb free_of_vendor_identity_value items
      else true
  | _ => true
  end.

Definition free_of_vendor_identity (data : dict) : bool :=
  free_of_vendor_identity_value (JDict data).

(** Whether the routine keeps what lies at [path] inside [value].  The path
    is followed for as long as it runs through what the loop visits, and no
    key on that stretch may be one the loop deletes; the loop does not look
    inside a list that has an element other than a dictionary. *)
Fixpoint path_is_kept (path : list selector) (value : json) : bool :=
  match path, value with
  | Key key :: path', JDict items =>
      negb (is_vendor_key key)
      && match dict_get key items with
         | Some v => path_is_kept path' v
         | None => true
         end
  | Index i :: path', JList items =>
      if forallb is_dict items then
        match items !! i with
        | Some v => path_is_kept path' v
        | None => true
        end
      else true
  | _, _ => true
  end.
End redaction.

(** [str.lower] on ASCII text.  Code points outside ASCII are left as they
    are, so this stands for [str.lower] on ASCII input only; it is the runtime
    of the worked examples, all of which are ASCII. *)
Definition ascii_lower (s : pystr) : pystr :=
  (λ c, if (65 <=? c) && (c <=? 90) then c + 32 else c)%N <$> s.

(** ** The same routine over an object store

    Dictionaries and lists are mutable objects.  [sanitize_vendor_data] makes
    a shallow copy of its argument, then deletes and assigns entries of the
    copy while it iterates over a snapshot of the copy's items; the values in
    that snapshot are references to the caller's nested objects. *)

Definition loc : Type := positive.

Inductive val : Type :=
| VNone
| VBool (b : bool)
| VInt (n : Z)
| VFloat (bits : Z)
| VStr (s : pystr)
| VRef (l : loc).

Inductive obj : Type :=
| ODict (items : list (pystr * val))
| OList (items : list val).

Abbreviation store := (gmap loc obj).

(** A computation that reads and writes the store and may raise. *)
Definition M (A : Type) : Type := store → option (A * store).

Definition ret {A} (a : A) : M A := λ σ, Some (a, σ).

Definition raise {A} : M A := λ _, None.

Definition bind {A B} (m : M A) (f : A → M B) : M B :=
  λ σ, match m σ with
       | Some (a, σ') => f a σ'
       | None => None
       end.

#[global] Instance M_ret : MRet M := @ret.
#[global] Instance M_bind : MBind M := λ A B f m, bind m f.

(** Object creation: the new object gets an address no live object has. *)
Definition new (o : obj) : M loc :=
  λ σ, let l := fresh (dom σ) in Some (l, <[l := o]> σ).

Definition load (l : loc) : M obj :=
  λ σ, match σ !! l with
       | Some o => Some (o, σ)
       | None => None
       end.

(** [del d[key]]: [KeyError] when the key is absent. *)
Fixpoint dict_delitem (key : pystr) (items : list (pystr * val))
  : option (list (pystr * val)) :=
  match items with
  | [] => None
  | (k, v) :: rest =>
      if decide (k = key) then Some rest
      else cons (k, v) <$> dict_delitem key rest
  end.

(** [d[key] = v]: an existing key keeps its position. *)
Fixpoint dict_setitem (key : pystr) (v : val) (items : list (pystr * val))
  : list (pystr * val) :=
  match items with
  | [] => [(key, v)]
  | (k, v0) :: rest =>
      if decide (k = key) then (k, v) :: rest
      else (k, v0) :: dict_setitem key v rest
  end.

Definition delitem (d : loc) (key : pystr) : M unit :=
  λ σ, match σ !! d with
       | Some (ODict items) =>
           match dict_delitem key items with
           | Some items' => Some (tt, <[d := ODict items']> σ)
           | None => None
           end
       | _ => None
       end.

Definition setitem (d : loc) (key : pystr) (v : val) : M unit :=
  λ σ, match σ !! d with
       | Some (ODict items) =>
           Some (tt, <[d := ODict (dict_setitem key v items)]> σ)
       | _ => None
       end.

(** [isinstance(v, dict)] *)
Definition isinstance_dict (σ : store) (v : val) : bool :=
  match v with
  | VRef l => match σ !! l with Some (ODict _) => true | _ => false end
  | _ => false
  end.

(** [all(isinstance(item, dict) for item in value)] *)
Definition all_isinstance_dict (value : list val) : M bool :=
  λ σ, Some (forallb (isinstance_dict σ) value, σ).

(** [for x in xs: body(x)] *)
Fixpoint for_each {A} (body : A → M unit) (xs : list A) : M unit :=
  match xs with
  | [] => mret tt
  | x :: xs' => body x ;; for_each body xs'
  end.

(** [[f(x) for x in xs]], before the list object is created. *)
Fixpoint comprehension {A B} (f : A → M B) (xs : list A) : M (list B) :=
  match xs with
  | [] => mret []
  | x :: xs' => y ← f x; ys ← comprehension f xs'; mret (y :: ys)
  end.

(** [m] leaves every object of [σ0] as it is, whatever else the store holds
    when it starts. *)
Definition preserves {A} (σ0 : store) (m : M A) : Prop :=
  ∀ σ a σ', σ0 ⊆ σ → m σ = Some (a, σ') → σ0 ⊆ σ'.

(** [m] only adds objects to the store. *)
Definition grows {A} (m : M A) : Prop :=
  ∀ σ a σ', m σ = Some (a, σ') → σ ⊆ σ'.

(** A value of the store denotes a JSON tree when the objects it reaches are
    laid out as the tree says; the keys of a dictionary are distinct. *)
#[warnings="-register-all"] Inductive represents (σ : store) : val → json → Prop :=
| represents_none : represents σ VNone JNull
| represents_bool b : represents σ (VBool b) (JBool b)
| represents_int n : represents σ (VInt n) (JInt n)
| represents_float bits : represents σ (VFloat bits) (JFloat bits)
| represents_str s : represents σ (VStr s) (JStr s)
| represents_list l vs ts :
    σ !! l = Some (OList vs) →
    Forall2 (represents σ) vs ts →
    represents σ (VRef l) (JList ts)
| represents_dict l items titems :
    σ !! l = Some (ODict items) →
    NoDup items.*1 →
    Forall2 (λ kv kt, kv.1 = kt.1 ∧ represents σ kv.2 kt.2) items titems →
    represents σ (VRef l) (JDict titems).

(** [ρ] is the part of the store [σ] that some payloads occupy.  After a run
    the payloads occupy [ρ'] inside [σ']: nothing that was allocated in [σ]
    has entered or left that part, and no object was freed. *)
Definition extends (σ ρ σ' ρ' : store) : Prop :=
  ρ ⊆ ρ' ∧ ρ' ⊆ σ' ∧
  ∀ l, is_Some (σ !! l) → is_Some (σ' !! l) ∧ ρ' !! l = ρ !! l.

(** Nesting depth of dictionaries, the recursion depth the routine needs. *)
Fixpoint depth (v : json) : nat :=
  match v with
  | JList items => foldr (λ x n, Nat.max (depth x) n) 0%nat items
  | JDict items =>
      S (foldr (λ kv n, Nat.max (match kv with (_, x) => depth x end) n) 0%nat items)
  | _ => 0%nat
  end.

Section store_redaction.
Variable lower : pystr → pystr.

(** The body of the loop for one item of the snapshot; [self] is the
    recursive call. *)
Definition sanitize_entry (self : val → M val) (sanitized : loc)
    (entry : pystr * val) : M unit :=
  let '(key, value) := entry in
  if is_vendor_key lower key then delitem sanitized key
  else match value with
       | VStr s =>
           setitem sanitized key
             (VStr (str_replace vendor_display_name platform_display_name s))
       | VRef r =>
           o ← load r;
           match o with
           | ODict _ =>
               v' ← self value;
               setitem sanitized key v'
           | OList elems =>
               all_dicts ← all_isinstance_dict elems;
               if all_dicts : bool then
                 elems' ← comprehension self elems;
                 l' ← new (OList elems');
                 setitem sanitized key (VRef l')
               else mret tt
           end
       | _ => mret tt
       end.

(** [fuel] bounds the depth of the recursion, as the interpreter's recursion
    limit does; running out of it raises, and so does an argument that is not
    a dictionary. *)
(** [self] behaves on the store as [sanitize_vendor_data] does on trees, for
    payloads nested at most [n] deep. *)
Definition refines (self : val → M val) (n : nat) : Prop :=
  ∀ σ ρ v t,
    ρ ⊆ σ → represents ρ v (JDict t) → (depth (JDict t) ≤ n)%nat →
    ∃ r σ' ρ',
      self v σ = Some (VRef r, σ') ∧ σ ⊆ σ' ∧ extends σ ρ σ' ρ' ∧
      represents ρ' (VRef r) (JDict (sanitize_vendor_data lower t)).

Fixpoint sanitize_vendor_data_st (fuel : nat) (data : val) : M val :=
  match fuel, data with
  | S fuel', VRef d =>
      o ← load d;
      match o with
      | ODict items =>
          sanitized ← new (ODict items);
          for_each (sanitize_entry (sanitize_vendor_data_st fuel') sanitized) items;;
          mret (VRef sanitized)
      | OList _ => raise
      end
  | _, _ => raise
  end.
End store_redaction.


(** ** Outcomes of the guards and handlers *)

(** An exception leaving the framework, a dependency or a handler.
    [HTTPException] is answered by [http_exception_handler] with its own
    status and [RequestValidationError] by the framework's own handler; any
    other exception reaches [general_exception_handler]. *)
Inductive exception : Type :=
| HTTPException (status_code : Z) (detail : pystr)
| RequestValidationError
| TypeError
| UnicodeDecodeError
| KeyError
| JSONDecodeError
| RuntimeError.

Inductive outcome (A : Type) : Type :=
| Returns (a : A)
| Raises (e : exception).
Arguments Returns {A} a.
Arguments Raises {A} e.

#[global] Instance outcome_ret : MRet outcome := λ A a, Returns a.
#[global] Instance outcome_bind : MBind outcome := λ A B f m,
  match m with
  | Returns a => f a
  | Raises e => Raises e
  end.

Definition HTTP_401_UNAUTHORIZED : Z := 401.
Definition HTTP_403_FORBIDDEN : Z := 403.

(** The status line of the response, after the exception handlers. *)
Definition status_code_of {A} (o : outcome A) : Z :=
  match o with
  | Returns _ => 200
  | Raises (HTTPException status_code _) => status_code
  | Raises RequestValidationError => 422
  | Raises _ => 500
  end.

(** ** Signature codec and freshness guard: [verify_hmac] *)

Definition hex_digit (n : N) : N :=
  (if n <? 10 then 48 + n else 87 + n)%N.

(** [bytes.hex()], the text [hexdigest] returns. *)
Definition hexlify (data : pybytes) : pystr :=
  flat_map (λ b, [hex_digit (Byte.to_N b / 16); hex_digit (Byte.to_N b mod 16)]%N) data.

Definition isascii (s : pystr) : bool := forallb (λ c, c <? 128)%N s.


(** [hmac.compare_digest] on two [str]: both must be ASCII. *)
Definition compare_digest (a b : pystr) : outcome bool :=
  if isascii a && isascii b then Returns (bool_decide (a = b))
  else Raises TypeError.

(** What the dependencies and the handlers read of a vendor request:
    [request.client.host], the two signature headers as [request.headers.get]
    gives them, [None] for a header that was not sent, and the raw body.  The
    other headers, the content type among them, are part of what the
    framework's readers below stand for. *)
Record Request : Type := {
  client_host : pystr;
  x_vendor_signature : option pystr;
  x_vendor_timestamp : option pystr;
  body : pybytes;
}.

Section signature.
(** The runtime: [hmac.new(key, msg, hashlib.sha256).digest()], [str.encode],
    [bytes.decode('utf-8')] and [int(str)], the last two with [None] for the
    exception they raise on malformed input. *)
Variable hmac_sha256 : pybytes → pybytes → pybytes.
Variable encode : pystr → pybytes.
Variable decode : pybytes → option pystr.
Variable int_of_str : pystr → option Z.
(** Configuration. *)
Variable VENDOR_HMAC_SECRET : pystr.

(** The text that is signed: the timestamp, a dot, the body. *)
Definition signed_message (timestamp text : pystr) : pystr :=
  timestamp ++ str "." ++ text.

(** The signing steps shared by [verify_hmac] and [forward_to_vendor]:
    the HMAC-SHA256 hex digest of [timestamp + "." + text]. *)
Definition sign (timestamp text : pystr) : pystr :=
  let message := timestamp ++ str "." ++ text in
  hexlify (hmac_sha256 (encode VENDOR_HMAC_SECRET) (encode message)).

(** The replay check at the end of [verify_hmac]: the [try] block around
    [int(x_vendor_timestamp)], with [now] for [int(time.time())]. *)
Definition check_timestamp (now : Z) (x_vendor_timestamp : pystr) : outcome bool :=
  match int_of_str x_vendor_timestamp with
  | Some timestamp =>
      let current_time := now in
      if Z.abs (current_time - timestamp) >? 300 then
        Raises (HTTPException HTTP_401_UNAUTHORIZED (str "Expired timestamp"))
      else Returns true
  | None =>
      Raises (HTTPException HTTP_401_UNAUTHORIZED (str "Invalid timestamp format"))
  end.

(** [verify_hmac(request, x_vendor_signature, x_vendor_timestamp)]: the
    framework calls it with the values of the two headers. *)
Definition verify_hmac (now : Z) (request : Request)
    (x_vendor_signature x_vendor_timestamp : pystr) : outcome bool :=
  match decode (body request) with
  | None => Raises UnicodeDecodeError
  | Some text =>
      let computed_signature := sign x_vendor_timestamp text in
      matched ← compare_digest computed_signature x_vendor_signature;
      if negb matched then
        Raises (HTTPException HTTP_401_UNAUTHORIZED (str "Invalid signature"))
      else check_timestamp now x_vendor_timestamp
  end.
End signature.

(** ** Network provenance guard: [verify_ip_allowlist] *)

(** [s.split(sep)] for a one-character separator. *)
Fixpoint split_on (sep : N) (s : pystr) : list pystr :=
  match s with
  | [] => [[]]
  | c :: s' =>
      if decide (c = sep) then [] :: split_on sep s'
      else match split_on sep s' with
           | [] => [[c]]
           | field :: fields => (c :: field) :: fields
           end
  end.

Definition is_ascii_digit (c : N) : bool := ((48 <=? c) && (c <=? 57))%N.

Definition decimal_value (digits : pystr) : Z :=
  foldl (λ acc c, 10 * acc + (Z.of_N c - 48)) 0 digits.

(** [IPv4Address._parse_octet] *)
Definition parse_octet (octet_str : pystr) : option Z :=
  match octet_str with
  | [] => None
  | first :: rest =>
      if negb (forallb is_ascii_digit octet_str) then None
      else if (3 <? length octet_str)%nat then None
      else if bool_decide (first = 48%N) && negb (bool_decide (rest = [])) then None
      else if decimal_value octet_str >? 255 then None
      else Some (decimal_value octet_str)
  end.

(** [IPv4Address(address)] as its 32-bit integer; [None] is
    [AddressValueError]. *)
Definition IPv4Address (address : pystr) : option Z :=
  match split_on 46 address with
  | [a; b; c; d] =>
      a ← parse_octet a; b ← parse_octet b; c ← parse_octet c; d ← parse_octet d;
      Some (((a * 256 + b) * 256 + c) * 256 + d)
  | _ => None
  end.

(** The text of an address in dotted-decimal notation, each octet written
    as [str] writes an integer. *)
Definition dotted_quad (a b c d : Z) : pystr :=
  str_of_int a ++ str "." ++ str_of_int b ++ str "." ++ str_of_int c
  ++ str "." ++ str_of_int d.

(** The 32-bit integer of the address [a.b.c.d]. *)
Definition address_of_octets (a b c d : Z) : Z :=
  ((a * 256 + b) * 256 + c) * 256 + d.

Record IPv4Network : Type := {
  network_address : Z;
  prefixlen : Z;
}.

Definition ALL_ONES : Z := 2 ^ 32 - 1.

Definition netmask (network : IPv4Network) : Z :=
  Z.lxor ALL_ONES (Z.shiftr ALL_ONES (prefixlen network)).

(** [address in network] *)
Definition network_contains (network : IPv4Network) (address : Z) : bool :=
  Z.land address (netmask network) =? network_address network.

(** The characters a dotted-quad address is written with. *)
Definition is_address_char (c : N) : bool :=
  is_ascii_digit c || bool_decide (c = 46%N).

(** The two addresses the guard lets through before looking at the list. *)
Definition loopback (client_ip : pystr) : Prop :=
  client_ip = str "127.0.0.1" ∨ client_ip = str "::1".

Section provenance.
Variable ALLOWED_IP_NETWORKS : list IPv4Network.

Definition verify_ip_allowlist (request : Request) : outcome bool :=
  let client_ip := client_host request in
  if bool_decide (client_ip = str "127.0.0.1") || bool_decide (client_ip = str "::1")
  then Returns true
  else
    match IPv4Address client_ip with
    | Some client_ip_obj =>
        if existsb (λ network, network_contains network client_ip_obj)
             ALLOWED_IP_NETWORKS
        then Returns true
        else Raises (HTTPException HTTP_403_FORBIDDEN (str "IP not in allowlist"))
    | None => Raises (HTTPException HTTP_403_FORBIDDEN (str "Invalid IP format"))
    end.
End provenance.

(** ** Tenant token verifier: [verify_internal_jwt] *)

(** What [jwt.decode] yields: the claim set, or a [PyJWTError] with its
    message. *)
Inductive jwt_result : Type :=
| Claims (payload : dict)
| PyJWTError (message : pystr).

Section tenant_token.
(** [jwt.decode(token, JWT_SECRET, algorithms=[JWT_ALGORITHM])] *)
Variable jwt_decode : pystr → jwt_result.

(** The token inside the [Authorization] header. *)
Definition bearer_token (authorization : pystr) : pystr :=
  if starts_with (str "Bearer ") authorization then drop 7 authorization
  else authorization.

Definition verify_internal_jwt (authorization : pystr) : outcome dict :=
  let token := bearer_token authorization in
  match jwt_decode token with
  | Claims payload =>
      match dict_get (str "sandbox_id") payload with
      | None =>
          Raises (HTTPException HTTP_401_UNAUTHORIZED
                    (str "Invalid token: missing sandbox_id"))
      | Some _ => Returns payload
      end
  | PyJWTError message =>
      Raises (HTTPException HTTP_401_UNAUTHORIZED (str "Invalid token: " ++ message))
  end.
End tenant_token.

(** [value != s] for a string [s]: only an equal string compares equal. *)
Definition ne_str (value : json) (s : pystr) : bool :=
  match value with
  | JStr s' => negb (bool_decide (s' = s))
  | _ => true
  end.

(** ** Message models and the audit record *)

Record SeoTask : Type := {
  task_request_id : pystr;
  sandbox_id : pystr;
  task_type : pystr;
  task_title : pystr;
  task_description : pystr;
  priority : pystr;
  deadline : option pystr;
  task_details : dict;
}.

Record SeoReport : Type := {
  report_request_id : pystr;
  report_type : pystr;
  report_title : pystr;
  summary : pystr;
  report_url : option pystr;
  metrics : option dict;
  report_details : dict;
}.

Record PublishNotification : Type := {
  publish_request_id : pystr;
  publish_type : pystr;
  publish_title : pystr;
  publish_description : pystr;
  published_url : pystr;
  publish_date : pystr;
  publish_details : option dict;
}.

Record UploadFile : Type := {
  filename : option pystr;
  content_type : option pystr;
  file_content : pybytes;
}.

Definition optional_str (o : option pystr) : json :=
  match o with Some s => JStr s | None => JNull end.

Definition optional_dict (o : option dict) : json :=
  match o with Some d => JDict d | None => JNull end.

(** [task.dict()] *)
Definition SeoTask_dict (task : SeoTask) : dict :=
  [ (str "request_id", JStr (task_request_id task));
    (str "sandbox_id", JStr (sandbox_id task));
    (str "task_type", JStr (task_type task));
    (str "title", JStr (task_title task));
    (str "description", JStr (task_description task));
    (str "priority", JStr (priority task));
    (str "deadline", optional_str (deadline task));
    (str "details", JDict (task_details task)) ].

(** [report.dict()] *)
Definition SeoReport_dict (report : SeoReport) : dict :=
  [ (str "request_id", JStr (report_request_id report));
    (str "report_type", JStr (report_type report));
    (str "title", JStr (report_title report));
    (str "summary", JStr (summary report));
    (str "report_url", optional_str (report_url report));
    (str "metrics", optional_dict (metrics report));
    (str "details", JDict (report_details report)) ].

(** [notification.dict()] *)
Definition PublishNotification_dict (notification : PublishNotification) : dict :=
  [ (str "request_id", JStr (publish_request_id notification));
    (str "publish_type", JStr (publish_type notification));
    (str "title", JStr (publish_title notification));
    (str "description", JStr (publish_description notification));
    (str "published_url", JStr (published_url notification));
    (str "publish_date", JStr (publish_date notification));
    (str "details", optional_dict (publish_details notification)) ].

(** A row of [vendor_communications]. *)
Record VendorCommunication : Type := {
  id : pystr;
  request_id : option pystr;
  direction : pystr;
  message_type : pystr;
  payload : dict;
  hmac_signature : option pystr;
  ip_address : option pystr;
  processed : bool;
}.

(** The database session, seen as the rows committed so far. *)
Definition Session : Type := list VendorCommunication.

(** [log_communication]; [uuid] is the value [uuid4()] draws. *)
Definition log_communication (db : Session) (uuid : pystr)
    (direction message_type : pystr) (payload : dict)
    (request_id hmac_signature ip_address : option pystr)
  : VendorCommunication * Session :=
  let comm := {|
    id := uuid;
    request_id := request_id;
    direction := direction;
    message_type := message_type;
    payload := payload;
    hmac_signature := hmac_signature;
    ip_address := ip_address;
    processed := false;
  |} in
  (comm, db ++ [comm]).

(** ** Outbound relay client: [forward_to_vendor] *)

(** The request [client.post(url, json=data, headers=headers)] puts on the
    wire: [content] is the body the HTTP client serialises from [data]. *)
Record VendorRequest : Type := {
  url : pystr;
  headers : list (pystr * pystr);
  content : pybytes;
}.

(** [headers.get(name)] *)
Fixpoint get_header (name : pystr) (headers : list (pystr * pystr)) : option pystr :=
  match headers with
  | [] => None
  | (k, v) :: rest => if decide (k = name) then Some v else get_header name rest
  end.

(** What comes back from the post, [raise_for_status] and [response.json()]. *)
Inductive vendor_reply : Type :=
| ReplyJson (response : json)
| ReplyNotJson
| HTTPStatusError (status_code : Z) (text : pystr)
| RequestError.

(** What the framework makes of the body of an endpoint that declares a
    JSON model.  [Malformed]: the body is not JSON, answered with
    [RequestValidationError] before any dependency is called.  [Unreadable]:
    any other failure while the body is read, answered 400.  [Invalid]: the
    body was read but is no document of the model, or there is none; the
    validation error is raised once the dependencies have been called. *)
Inductive body_reading (A : Type) : Type :=
| Malformed
| Unreadable
| Invalid
| Valid (model : A).
Arguments Malformed {A}.
Arguments Unreadable {A}.
Arguments Invalid {A}.
Arguments Valid {A} model.

(** What the framework makes of the body of the file endpoint.  [BadForm]:
    the form parser gave up, answered 400.  [NotAForm]: the content type is
    not that of a form; the request stream is left unread and no field is
    found.  [Form]: the form was read from the request stream, which is
    thereby consumed; [fields] holds [file], [request_id] and [file_type]
    when all three validate. *)
Inductive form_reading : Type :=
| BadForm (detail : pystr)
| NotAForm
| Form (fields : option (UploadFile * pystr * pystr)).

Section relay.
Variable lower : pystr → pystr.
Variable hmac_sha256 : pybytes → pybytes → pybytes.
Variable encode : pystr → pybytes.
Variable decode : pybytes → option pystr.
Variable int_of_str : pystr → option Z.
Variable jwt_decode : pystr → jwt_result.
(** [json.dumps] with its default arguments, and the JSON encoder of the
    HTTP client behind [client.post(..., json=data)]. *)
Variable json_dumps : dict → pystr.
Variable client_encode_json : dict → pybytes.
(** The vendor's side of the exchange. *)
Variable vendor : VendorRequest → vendor_reply.
(** The framework's reading of a request body: against the model of the
    report endpoint, of the publish endpoint, and as the form of the file
    endpoint. *)
Variable read_report : Request → body_reading SeoReport.
Variable read_notification : Request → body_reading PublishNotification.
Variable read_upload : Request → form_reading.
(** Configuration. *)
Variable VENDOR_HMAC_SECRET : pystr.
Variable VENDOR_API_KEY : pystr.
Variable VENDOR_API_URL : pystr.
Variable ALLOWED_IP_NETWORKS : list IPv4Network.

(** The request [forward_to_vendor] builds. *)
Definition vendor_request (now : Z) (endpoint : pystr) (data : dict) : VendorRequest :=
  let url := VENDOR_API_URL ++ str "/" ++ endpoint in
  let timestamp := str_of_int now in
  let signature :=
    sign hmac_sha256 encode VENDOR_HMAC_SECRET timestamp (json_dumps data) in
  {| url := url;
     headers := [ (str "X-API-Key", VENDOR_API_KEY);
                  (str "Content-Type", str "application/json");
                  (str "X-Timestamp", timestamp);
                  (str "X-Signature", signature) ];
     content := client_encode_json data |}.

Definition forward_to_vendor (now : Z) (endpoint : pystr) (data : dict)
  : outcome json :=
  match vendor (vendor_request now endpoint data) with
  | ReplyJson response => Returns response
  | ReplyNotJson => Raises JSONDecodeError
  | HTTPStatusError status_code text =>
      Raises (HTTPException status_code (str "Vendor API error: " ++ text))
  | RequestError => Raises (HTTPException 503 (str "Vendor API unavailable"))
  end.

(** ** Endpoints

    The dependencies of an endpoint are resolved in the order of its
    parameters, and the first exception ends the request. *)

(** The task endpoint, for a request that carries the [Authorization]
    header and a body the framework has validated as a task. *)

Definition submit_seo_task (now : Z) (uuid : pystr) (authorization : pystr)
    (task : SeoTask) (db : Session) : outcome dict * Session :=
  match verify_internal_jwt jwt_decode authorization with
  | Raises e => (Raises e, db)
  | Returns jwt_payload =>
      match dict_get (str "sandbox_id") jwt_payload with
      | None => (Raises KeyError, db)
      | Some token_sandbox_id =>
          if ne_str token_sandbox_id (sandbox_id task) then
            (Raises (HTTPException HTTP_403_FORBIDDEN (str "Sandbox ID mismatch")), db)
          else
            let '(_, db') :=
              log_communication db uuid (str "outbound") (str "task")
                (SeoTask_dict task) (Some (task_request_id task)) None None in
            match forward_to_vendor now (str "tasks") (SeoTask_dict task) with
            | Raises e => (Raises e, db')
            | Returns vendor_response =>
                (Returns [ (str "success", JBool true);
                           (str "message", JStr (str "Task submitted successfully"));
                           (str "task_id", JStr (task_request_id task));
                           (str "status", JStr (str "pending")) ], db')
            end
      end
  end.

(** *** The framework around the inbound endpoints

    For an endpoint the framework first reads the body.  It then calls the
    dependencies in the order of the handler's parameters; a dependency with
    a required header that was not sent is not called and leaves a validation
    error, and the dependencies after it are still called.  Last it validates
    the body against the handler's model.  With any validation error the
    answer is [RequestValidationError]; an exception raised on the way ends
    the request where it is raised. *)

(** The two dependencies of the inbound endpoints, as they are declared:
    [verify_hmac], then [verify_ip_allowlist].  [await request.body()] is
    the first statement of [verify_hmac]: when the framework has read a form
    from the request stream ([stream_consumed]), it raises [RuntimeError].
    The result tells whether every dependency was called. *)
Definition inbound_dependencies (stream_consumed : bool) (now : Z)
    (request : Request) : outcome bool :=
  match x_vendor_signature request, x_vendor_timestamp request with
  | Some signature, Some timestamp =>
      (if stream_consumed then Raises RuntimeError
       else verify_hmac hmac_sha256 encode decode int_of_str VENDOR_HMAC_SECRET
              now request signature timestamp);;
      verify_ip_allowlist ALLOWED_IP_NETWORKS request;;
      mret true
  | _, _ =>
      verify_ip_allowlist ALLOWED_IP_NETWORKS request;;
      mret false
  end.

(** An endpoint with a JSON model: [handler] is the body of the endpoint
    function, [reading] what the framework made of the request body. *)
Definition json_endpoint {A} (reading : body_reading A) (now : Z)
    (request : Request) (db : Session)
    (handler : A → outcome dict * Session) : outcome dict * Session :=
  match reading with
  | Malformed => (Raises RequestValidationError, db)
  | Unreadable =>
      (Raises (HTTPException 400 (str "There was an error parsing the body")), db)
  | _ =>
      match inbound_dependencies false now request with
      | Raises e => (Raises e, db)
      | Returns called =>
          match called, reading with
          | true, Valid model => handler model
          | _, _ => (Raises RequestValidationError, db)
          end
      end
  end.

Definition receive_seo_report (now : Z) (uuid : pystr) (request : Request)
    (db : Session) : outcome dict * Session :=
  json_endpoint (read_report request) now request db (λ report,
    let '(_, db') :=
      log_communication db uuid (str "inbound") (str "report")
        (SeoReport_dict report) (Some (report_request_id report))
        (x_vendor_signature request) (Some (client_host request)) in
    let sanitized_report := sanitize_vendor_data lower (SeoReport_dict report) in
    (Returns [ (str "success", JBool true);
               (str "message", JStr (str "Report received successfully")) ], db')).

Definition receive_publish_notification (now : Z) (uuid : pystr)
    (request : Request) (db : Session) : outcome dict * Session :=
  json_endpoint (read_notification request) now request db (λ notification,
    let '(_, db') :=
      log_communication db uuid (str "inbound") (str "publish")
        (PublishNotification_dict notification)
        (Some (publish_request_id notification))
        (x_vendor_signature request) (Some (client_host request)) in
    let sanitized_notification :=
      sanitize_vendor_data lower (PublishNotification_dict notification) in
    (Returns [ (str "success", JBool true);
               (str "message",
                JStr (str "Publish notification received successfully")) ], db')).

(** The file endpoint declares a form: the framework reads the form from
    the request stream before it calls the dependencies. *)
Definition receive_vendor_file (now : Z) (uuid : pystr) (request : Request)
    (db : Session) : outcome dict * Session :=
  match read_upload request with
  | BadForm detail => (Raises (HTTPException 400 detail), db)
  | NotAForm =>
      match inbound_dependencies false now request with
      | Raises e => (Raises e, db)
      | Returns _ => (Raises RequestValidationError, db)
      end
  | Form fields =>
      match inbound_dependencies true now request with
      | Raises e => (Raises e, db)
      | Returns called =>
          match called, fields with
          | true, Some (file, request_id, file_type) =>
              let content := file_content file in
              let '(_, db') :=
                log_communication db uuid (str "inbound") (str "file")
                  [ (str "request_id", JStr request_id);
                    (str "file_type", JStr file_type);
                    (str "filename", optional_str (filename file));
                    (str "content_type", optional_str (content_type file));
                    (str "size", JInt (Z.of_nat (length content))) ]
                  (Some request_id)
                  (x_vendor_signature request) (Some (client_host request)) in
              (Returns [ (str "success", JBool true);
                         (str "message", JStr (str "File received successfully")) ],
               db')
          | _, _ => (Raises RequestValidationError, db)
          end
      end
  end.
End relay.

(** ** A reference runtime

    Executable models of the library functions the relay calls, used for the
    worked examples.  The general results quantify over the runtime and do
    not depend on them. *)

Module Ref.

(** *** SHA-256 (FIPS 180-4) and HMAC (RFC 2104) *)

Definition w32 (x : Z) : Z := x mod 2 ^ 32.

Definition rotr (n x : Z) : Z :=
  Z.lor (Z.shiftr x n) (w32 (Z.shiftl x (32 - n))).

Definition Ch (x y z : Z) : Z :=
  Z.lxor (Z.land x y) (Z.land (Z.lxor x ALL_ONES) z).

Definition Maj (x y z : Z) : Z :=
  Z.lxor (Z.lxor (Z.land x y) (Z.land x z)) (Z.land y z).

Definition Sigma0 (x : Z) : Z := Z.lxor (Z.lxor (rotr 2 x) (rotr 13 x)) (rotr 22 x).
Definition Sigma1 (x : Z) : Z := Z.lxor (Z.lxor (rotr 6 x) (rotr 11 x)) (rotr 25 x).
Definition sigma0 (x : Z) : Z := Z.lxor (Z.lxor (rotr 7 x) (rotr 18 x)) (Z.shiftr x 3).
Definition sigma1 (x : Z) : Z := Z.lxor (Z.lxor (rotr 17 x) (rotr 19 x)) (Z.shiftr x 10).

Definition K : list Z :=
  [
    1116352408; 1899447441; 3049323471; 3921009573; 961987163; 1508970993;
    2453635748; 2870763221; 3624381080; 310598401; 607225278; 1426881987;
    1925078388; 2162078206; 2614888103; 3248222580; 3835390401; 4022224774;
    264347078; 604807628; 770255983; 1249150122; 1555081692; 1996064986;
    2554220882; 2821834349; 2952996808; 3210313671; 3336571891; 3584528711;
    113926993; 338241895; 666307205; 773529912; 1294757372; 1396182291;
    1695183700; 1986661051; 2177026350; 2456956037; 2730485921; 2820302411;
    3259730800; 3345764771; 3516065817; 3600352804; 4094571909; 275423344;
    430227734; 506948616; 659060556; 883997877; 958139571; 1322822218;
    1537002063; 1747873779; 1955562222; 2024104815; 2227730452; 2361852424;
    2428436474; 2756734187; 3204031479; 3329325298 ].

Definition H0 : list Z :=
  [
    1779033703; 3144134277; 1013904242; 2773480762; 1359893119; 2600822924;
    528734635; 1541459225 ].

(** [n] as [k] big-endian octets. *)
Fixpoint big_endian (k : nat) (n : Z) : list Z :=
  match k with
  | O => []
  | S k' => big_endian k' (n / 256) ++ [n mod 256]
  end.

Definition from_big_endian (octets : list Z) : Z :=
  foldl (λ acc b, acc * 256 + b) 0 octets.

Definition pad (message : list Z) : list Z :=
  let len := Z.of_nat (length message) in
  let zeros := Z.to_nat ((55 - len) mod 64) in
  message ++ [128] ++ replicate zeros 0 ++ big_endian 8 (8 * len).

Fixpoint chunks {A} (size count : nat) (l : list A) : list (list A) :=
  match count with
  | O => []
  | S count' => take size l :: chunks size count' (drop size l)
  end.

(** The message schedule: [window] holds the last sixteen words. *)
Fixpoint schedule (rounds : nat) (window : list Z) : list Z :=
  match rounds with
  | O => []
  | S rounds' =>
      let w := w32 (sigma1 (window !!! 14%nat) + window !!! 9%nat
                    + sigma0 (window !!! 1%nat) + window !!! 0%nat) in
      w :: schedule rounds' (drop 1 window ++ [w])
  end.

Definition round (state : list Z) (kw : Z * Z) : list Z :=
  match state with
  | [a; b; c; d; e; f; g; h] =>
      let T1 := h + Sigma1 e + Ch e f g + kw.1 + kw.2 in
      let T2 := Sigma0 a + Maj a b c in
      [w32 (T1 + T2); a; b; c; w32 (d + T1); e; f; g]
  | _ => state
  end.

Definition compress (hash : list Z) (block : list Z) : list Z :=
  let words := from_big_endian <$> chunks 4 16 block in
  let W := words ++ schedule 48 words in
  zip_with (λ x y, w32 (x + y)) hash (foldl round hash (zip K W)).

Definition sha256_octets (message : list Z) : list Z :=
  let padded := pad message in
  let blocks := chunks 64 (length padded / 64) padded in
  flat_map (big_endian 4) (foldl compress H0 blocks).

Definition octet (b : byte) : Z := Z.of_N (Byte.to_N b).

Definition byte_of (n : Z) : byte :=
  default x00 (Byte.of_N (Z.to_N n)).

Definition sha256 (message : pybytes) : pybytes :=
  byte_of <$> sha256_octets (octet <$> message).

Definition xor_pad (p : Z) (key : pybytes) : pybytes :=
  (λ b, byte_of (Z.lxor (octet b) p)) <$> key.

Definition hmac_sha256 (key message : pybytes) : pybytes :=
  let key := if (64 <? length key)%nat then sha256 key else key in
  let key := key ++ replicate (64 - length key) x00 in
  sha256 (xor_pad 92 key ++ sha256 (xor_pad 54 key ++ message)).

(** *** UTF-8 *)

Definition encode_code_point (c : N) : list N :=
  (if c <? 128 then [c]
   else if c <? 2048 then [192 + c / 64; 128 + c mod 64]
   else if c <? 65536 then [224 + c / 4096; 128 + c / 64 mod 64; 128 + c mod 64]
   else [240 + c / 262144; 128 + c / 4096 mod 64; 128 + c / 64 mod 64;
         128 + c mod 64])%N.

(** [s.encode()]; no lone surrogate occurs in the texts of the examples. *)
Definition encode (s : pystr) : pybytes :=
  (λ n, byte_of (Z.of_N n)) <$> flat_map encode_code_point s.

Definition continuation (b : N) : bool := ((128 <=? b) && (b <? 192))%N.

Fixpoint decode_octets (octets : list N) : option pystr :=
  match octets with
  | [] => Some []
  | b0 :: rest =>
      if (b0 <? 128)%N then cons b0 <$> decode_octets rest
      else if ((194 <=? b0) && (b0 <? 224))%N then
        match rest with
        | b1 :: rest' =>
            if continuation b1
            then cons ((b0 - 192) * 64 + (b1 - 128))%N <$> decode_octets rest'
            else None
        | _ => None
        end
      else if ((224 <=? b0) && (b0 <? 240))%N then
        match rest with
        | b1 :: b2 :: rest' =>
            let c := ((b0 - 224) * 4096 + (b1 - 128) * 64 + (b2 - 128))%N in
            if continuation b1 && continuation b2 && (2048 <=? c)%N
               && negb ((55296 <=? c) && (c <? 57344))%N
            then cons c <$> decode_octets rest'
            else None
        | _ => None
        end
      else if ((240 <=? b0) && (b0 <? 245))%N then
        match rest with
        | b1 :: b2 :: b3 :: rest' =>
            let c := ((b0 - 240) * 262144 + (b1 - 128) * 4096
                      + (b2 - 128) * 64 + (b3 - 128))%N in
            if continuation b1 && continuation b2 && continuation b3
               && (65536 <=? c)%N && (c <? 1114112)%N
            then cons c <$> decode_octets rest'
            else None
        | _ => None
        end
      else None
  end.

(** [b.decode('utf-8')] *)
Definition decode (b : pybytes) : option pystr :=
  decode_octets (Byte.to_N <$> b).

(** *** [int(s)]

    [int] skips blanks at both ends, takes an optional sign and then wants
    decimal digits, single underscores allowed between them, and no more
    than 4300 digits.  In ASCII text the blanks are those of C's [isspace];
    in other text the Unicode blanks above U+007E count as well.  Decimal
    digits of other scripts, which [int] also takes, are not recognised
    here: the timestamps of the examples are ASCII. *)

Definition is_c_space (c : N) : bool :=
  (((9 <=? c) && (c <=? 13)) || (c =? 32))%N.

Definition is_unicode_space (c : N) : bool :=
  ((c =? 133) || (c =? 160) || (c =? 5760) || ((8192 <=? c) && (c <=? 8202))
   || (c =? 8232) || (c =? 8233) || (c =? 8239) || (c =? 8287) || (c =? 12288))%N.

Definition is_space (c : N) : bool := is_c_space c || is_unicode_space c.

Fixpoint lstrip (s : pystr) : pystr :=
  match s with
  | c :: s' => if is_space c then lstrip s' else s
  | [] => []
  end.

Definition strip (s : pystr) : pystr :=
  reverse (lstrip (reverse (lstrip s))).

(** Digits with single underscores between them. *)
Fixpoint digits_value (acc : Z) (after_digit : bool) (s : pystr) : option Z :=
  match s with
  | [] => if after_digit then Some acc else None
  | c :: s' =>
      if is_ascii_digit c then digits_value (10 * acc + (Z.of_N c - 48)) true s'
      else if bool_decide (c = 95%N) && after_digit then digits_value acc false s'
      else None
  end.

Definition int_max_str_digits : nat := 4300.

Definition int_of_str (s : pystr) : option Z :=
  let unsigned digits :=
    if (int_max_str_digits <? length (filter (λ c, is_ascii_digit c = true) digits))%nat
    then None
    else digits_value 0 false digits in
  match strip s with
  | 45%N :: digits => Z.opp <$> unsigned digits
  | 43%N :: digits => unsigned digits
  | digits => unsigned digits
  end.

(** *** JSON text *)

Definition hex4 (c : N) : pystr :=
  [hex_digit (c / 4096 mod 16); hex_digit (c / 256 mod 16);
   hex_digit (c / 16 mod 16); hex_digit (c mod 16)]%N.

Definition backslash : N := 92.

(** A four-digit unicode escape, a surrogate pair above the basic plane. *)
Definition unicode_escape (c : N) : pystr :=
  (if c <? 65536 then [backslash; 117] ++ hex4 c
   else [backslash; 117] ++ hex4 (55296 + (c - 65536) / 1024)
        ++ [backslash; 117] ++ hex4 (56320 + (c - 65536) mod 1024))%N.

Definition escape (ensure_ascii : bool) (c : N) : pystr :=
  (if c =? 34 then [backslash; 34]
   else if c =? 92 then [backslash; 92]
   else if c =? 10 then [backslash; 110]
   else if c =? 13 then [backslash; 114]
   else if c =? 9 then [backslash; 116]
   else if c =? 8 then [backslash; 98]
   else if c =? 12 then [backslash; 102]
   else if c <? 32 then unicode_escape c
   else if ensure_ascii && (126 <? c) then unicode_escape c
   else [c])%N.

Definition encode_basestring (ensure_ascii : bool) (s : pystr) : pystr :=
  [34%N] ++ flat_map (escape ensure_ascii) s ++ [34%N].

Fixpoint join (sep : pystr) (parts : list pystr) : pystr :=
  match parts with
  | [] => []
  | [part] => part
  | part :: parts' => part ++ sep ++ join sep parts'
  end.

Section json_text.
(** [float.__repr__], on the bit pattern a [JFloat] carries. *)
Variable float_repr : Z → pystr.
Variables item_separator key_separator : pystr.
Variable ensure_ascii : bool.

Fixpoint json_encode (v : json) : pystr :=
  match v with
  | JNull => str "null"
  | JBool true => str "true"
  | JBool false => str "false"
  | JInt n => str_of_int n
  | JFloat bits => float_repr bits
  | JStr s => encode_basestring ensure_ascii s
  | JList items =>
      str "[" ++ join item_separator (map json_encode items) ++ str "]"
  | JDict items =>
      str "{"
      ++ join item_separator
           (map (λ kv, match kv with
                       | (key, x) =>
                           encode_basestring ensure_ascii key ++ key_separator
                           ++ json_encode x
                       end) items)
      ++ str "}"
  end.
End json_text.

(** [json.dumps(data)]: a space after each comma and colon, ASCII output. *)
Definition json_dumps (float_repr : Z → pystr) (data : dict) : pystr :=
  json_encode float_repr (str ", ") (str ": ") true (JDict data).

(** The body an HTTP client makes of [json=data] when it serialises with
    [json.dumps(data).encode()]. *)
Definition client_encode_json_default (float_repr : Z → pystr) (data : dict)
  : pybytes :=
  encode (json_dumps float_repr data).

(** The body an HTTP client makes of [json=data] when it serialises compactly:
    no space after commas and colons, no ASCII escaping. *)
Definition client_encode_json_compact (float_repr : Z → pystr) (data : dict)
  : pybytes :=
  encode (json_encode float_repr (str ",") (str ":") false (JDict data)).

(** No float occurs in the examples. *)
Definition no_floats (bits : Z) : pystr := [].

(** *** Stand-ins for the token library and for the vendor *)

(** A token verifier that knows its valid tokens by heart. *)
Fixpoint jwt_decode (valid : list (pystr * dict)) (token : pystr) : jwt_result :=
  match valid with
  | [] => PyJWTError (str "Not enough segments")
  | (t, payload) :: valid' =>
      if decide (t = token) then Claims payload else jwt_decode valid' token
  end.

(** A reader that knows the bodies of the examples by heart: [known] lists
    them with the model each one is a document of.  No other body is read in
    the examples. *)
Fixpoint read_body {A} (known : list (pybytes * A)) (request : Request)
  : body_reading A :=
  match known with
  | [] => Invalid
  | (document, model) :: known' =>
      if decide (body request = document) then Valid model
      else read_body known' request
  end.

(** A vendor that accepts everything. *)
Definition vendor (request : VendorRequest) : vendor_reply :=
  ReplyJson (JDict [(str "status", JStr (str "success"))]).
End Ref.

(** * Properties *)

(** ** Strings *)

Lemma str_replace_nil old new : str_replace old new [] = [].
Proof. by simp str_replace. Qed.

Lemma str_replace_cons old new c s :
  str_replace old new (c :: s) =
  if starts_with old (c :: s)
  then new ++ str_replace old new (drop (pred (length old)) s)
  else c :: str_replace old new s.
Proof. simp str_replace. by destruct (starts_with old (c :: s)). Qed.

Lemma starts_with_cons a needle b hay :
  starts_with (a :: needle) (b :: hay) = true ↔ a = b ∧ starts_with needle hay = true.
Proof.
  simpl. rewrite andb_true_iff, bool_decide_eq_true. done.
Qed.

Lemma str_contains_cons needle c hay :
  str_contains needle (c :: hay) =
  starts_with needle (c :: hay) || str_contains needle hay.
Proof. done. Qed.

(** A prefix without the first code point of [needle] hides no match. *)
Lemma str_contains_skip o needle pre hay :
  o ∉ pre →
  str_contains (o :: needle) (pre ++ hay) = str_contains (o :: needle) hay.
Proof.
  induction pre as [|p pre IH]; intros Hpre; [done|].
  apply not_elem_of_cons in Hpre as [Hne Hpre].
  cbn [app]. rewrite str_contains_cons, IH by done.
  cbn [starts_with]. rewrite bool_decide_eq_false_2 by done. done.
Qed.

Section replace_facts.
Variables (o n : N) (old' new' : pystr).
Let old := o :: old'.
Let new := n :: new'.
Hypothesis Ho : o ∉ new.
Hypothesis Hn : n ∉ old.

(** What the output starts with was already at the start of the input, as
    long as it cannot come from an inserted [new]. *)
Lemma starts_with_replace w s :
  n ∉ w →
  starts_with w (str_replace old new s) = true → starts_with w s = true.
Proof using Type.
  revert s. induction w as [|a w IH]; intros s Hw; [done|].
  apply not_elem_of_cons in Hw as [Han Hw].
  destruct s as [|c s].
  { by rewrite str_replace_nil. }
  rewrite str_replace_cons.
  destruct (starts_with old (c :: s)) eqn:Hm.
  - unfold new. cbn [app]. rewrite starts_with_cons. by intros [-> _].
  - rewrite !starts_with_cons. intros [-> H]. split; [done|]. by apply IH.
Qed.

Lemma str_replace_removes s :
  str_contains old (str_replace old new s) = false.
Proof using Ho Hn.
  remember (length s) as k eqn:Hk. revert s Hk.
  induction k as [k IH] using lt_wf_ind. intros s ->.
  destruct s as [|c s].
  { by rewrite str_replace_nil. }
  rewrite str_replace_cons.
  destruct (starts_with old (c :: s)) eqn:Hm.
  - unfold old at 1. rewrite str_contains_skip by done.
    eapply IH; [|done]. cbn [length]. rewrite length_drop. lia.
  - rewrite str_contains_cons. rewrite (IH (length s)); [| cbn; lia | done].
    rewrite orb_false_r. apply not_true_is_false. intros H.
    assert (starts_with old (str_replace old new (c :: s)) = true) as H'.
    { by rewrite str_replace_cons, Hm. }
    apply starts_with_replace in H'; [congruence | done].
Qed.

Lemma str_replace_absent s :
  str_contains old s = false → str_replace old new s = s.
Proof using Type.
  induction s as [|c s IH]; [by rewrite str_replace_nil|].
  rewrite str_contains_cons, orb_false_iff. intros [Hm Hs].
  rewrite str_replace_cons, Hm. by rewrite IH.
Qed.

Lemma str_replace_idemp s :
  str_replace old new (str_replace old new s) = str_replace old new s.
Proof using Ho Hn. apply str_replace_absent, str_replace_removes. Qed.
End replace_facts.

Lemma display_name_removed s :
  str_contains vendor_display_name
    (str_replace vendor_display_name platform_display_name s) = false.
Proof.
  change vendor_display_name with (67%N :: str "ustomerScout").
  change platform_display_name with (82%N :: str "ylie SEO").
  apply str_replace_removes; compute_done.
Qed.

Lemma display_name_replace_absent s :
  str_contains vendor_display_name s = false →
  str_replace vendor_display_name platform_display_name s = s.
Proof.
  change vendor_display_name with (67%N :: str "ustomerScout").
  apply str_replace_absent.
Qed.

Lemma display_name_replace_idemp s :
  str_replace vendor_display_name platform_display_name
    (str_replace vendor_display_name platform_display_name s) =
  str_replace vendor_display_name platform_display_name s.
Proof. apply display_name_replace_absent, display_name_removed. Qed.

Example str_replace_description :
  str_replace vendor_display_name platform_display_name
    (str "This report was created by CustomerScout") =
  str "This report was created by Rylie SEO".
Proof. reflexivity. Qed.

(** ** Identity redaction on payload trees *)

Section redaction_facts.
Variable lower : pystr → pystr.

Lemma sanitize_value_is_dict v : is_dict (sanitize_value lower v) = is_dict v.
Proof. destruct v; try done. simpl. by destruct (forallb is_dict items). Qed.

Lemma forallb_is_dict_sanitize items :
  forallb is_dict (map (sanitize_value lower) items) = forallb is_dict items.
Proof.
  induction items as [|v items IH]; [done|].
  cbn [map forallb]. by rewrite sanitize_value_is_dict, IH.
Qed.

Lemma sanitize_items_cons f key value rest :
  sanitize_items lower f ((key, value) :: rest) =
  if is_vendor_key lower key then sanitize_items lower f rest
  else (key, f value) :: sanitize_items lower f rest.
Proof. done. Qed.

Lemma sanitize_items_idemp items :
  Forall (λ kv, sanitize_value lower (sanitize_value lower kv.2) = sanitize_value lower kv.2) items →
  sanitize_items lower (sanitize_value lower) (sanitize_items lower (sanitize_value lower) items) =
  sanitize_items lower (sanitize_value lower) items.
Proof.
  induction 1 as [|[key value] rest Hv _ IH]; [done|].
  rewrite sanitize_items_cons.
  destruct (is_vendor_key lower key) eqn:Hkey; [done|].
  rewrite sanitize_items_cons, Hkey. simpl in Hv. by rewrite Hv, IH.
Qed.

Lemma sanitize_value_idemp v :
  sanitize_value lower (sanitize_value lower v) = sanitize_value lower v.
Proof.
  induction v as [| | | |s|items IH|items IH] using json_nested_ind; try done.
  - cbn [sanitize_value]. by rewrite display_name_replace_idemp.
  - cbn [sanitize_value].
    destruct (forallb is_dict items) eqn:Hall.
    + cbn [sanitize_value]. rewrite forallb_is_dict_sanitize, Hall.
      f_equal. clear Hall. induction IH as [|x l Hx _ IHl]; [done|].
      cbn [map]. by rewrite Hx, IHl.
    + cbn [sanitize_value]. by rewrite Hall.
  - cbn [sanitize_value]. f_equal. by apply sanitize_items_idemp.
Qed.

(** Redaction is idempotent: redacting a redacted payload changes nothing. *)
Theorem sanitize_vendor_data_idempotent (data : dict) :
  sanitize_vendor_data lower (sanitize_vendor_data lower data)
  = sanitize_vendor_data lower data.
Proof.
  apply sanitize_items_idemp, Forall_forall. intros kv _.
  apply sanitize_value_idemp.
Qed.

(** *** Lists that are not made of dictionaries only *)

Lemma dict_get_sanitize_items f key items :
  is_vendor_key lower key = false →
  dict_get key (sanitize_items lower f items) = f <$> dict_get key items.
Proof.
  intros Hkey. induction items as [|[k v] rest IH]; [done|].
  rewrite sanitize_items_cons. cbn [dict_get].
  destruct (decide (k = key)) as [->|Hne].
  - rewrite Hkey. cbn [dict_get]. by rewrite decide_True.
  - destruct (is_vendor_key lower k); [done|].
    cbn [dict_get]. by rewrite decide_False.
Qed.

Lemma dict_get_sanitize_items_deleted f key items :
  is_vendor_key lower key = true →
  dict_get key (sanitize_items lower f items) = None.
Proof.
  intros Hkey. induction items as [|[k v] rest IH]; [done|].
  rewrite sanitize_items_cons.
  destruct (is_vendor_key lower k) eqn:Hk; [done|].
  cbn [dict_get]. rewrite decide_False; [done|]. congruence.
Qed.

Lemma sanitize_value_mixed_list items :
  forallb is_dict items = false →
  sanitize_value lower (JList items) = JList items.
Proof. intros H. cbn. by rewrite H. Qed.

Lemma at_path_sanitize_value path v items :
  forallb is_dict items = false →
  at_path path v = Some (JList items) →
  at_path path (sanitize_value lower v)
  = if path_is_kept lower path v then Some (JList items) else None.
Proof.
  intros Hmixed. revert v.
  induction path as [|sel path IH]; intros v.
  { cbn. intros [= ->]. by rewrite sanitize_value_mixed_list. }
  destruct sel as [key|i]; cbn [at_path].
  - destruct v as [| | | | | |entries]; try done.
    cbn [sanitize_value path_is_kept].
    destruct (is_vendor_key lower key) eqn:Hkey; cbn [negb andb].
    + intros _. by rewrite dict_get_sanitize_items_deleted.
    + rewrite dict_get_sanitize_items by done.
      destruct (dict_get key entries) as [v'|]; [|done].
      cbn. apply IH.
  - destruct v as [| | | | |elems|]; try done.
    cbn [sanitize_value path_is_kept].
    destruct (forallb is_dict elems); [|done].
    change (map (sanitize_value lower) elems) with (sanitize_value lower <$> elems).
    cbn [at_path]. rewrite list_lookup_fmap.
    destruct (elems !! i) as [v'|]; [|done].
    cbn. apply IH.
Qed.

(** C10 (as amended).  A list with at least one element that is not a
    dictionary is found unchanged at the same place in the redacted payload,
    whatever its elements contain, unless a key on the way to it, down to
    the first such list on that way, is one the routine deletes: then the
    list is gone with that key. *)
Theorem mixed_list_passes_through (data : dict) path items :
  forallb is_dict items = false →
  at_path path (JDict data) = Some (JList items) →
  at_path path (JDict (sanitize_vendor_data lower data))
  = if path_is_kept lower path (JDict data) then Some (JList items) else None.
Proof.
  intros Hmixed Hat.
  by apply (at_path_sanitize_value path (JDict data)).
Qed.
End redaction_facts.

(** A list mixing a number and a dictionary: the dictionary keeps its vendor
    key and the vendor's name, and so does what lies deeper inside it. *)
Lemma mixed_list_passes_through_witness :
  let inner := JList [JInt 2; JDict [(str "cs_id", JStr (str "R1"))]] in
  let leak := JList [JInt 1; JDict [(str "vendor_id", inner);
                                    (str "name", JStr (str "CustomerScout"))]] in
  let data := [(str "title", JStr (str "Report")); (str "items", leak)] in
  let path := [Key (str "items"); Index 1; Key (str "vendor_id")] in
  forallb is_dict [JInt 2; JDict [(str "cs_id", JStr (str "R1"))]] = false
  ∧ at_path path (JDict data) = Some inner
  ∧ path_is_kept ascii_lower path (JDict data) = true
  ∧ at_path path (JDict (sanitize_vendor_data ascii_lower data)) = Some inner
  ∧ at_path [Key (str "items")] (JDict (sanitize_vendor_data ascii_lower data))
    = Some leak.
Proof.
  intros inner leak data path.
  split; [reflexivity|]. split; [reflexivity|]. split; [reflexivity|].
  split; [|reflexivity].
  exact (mixed_list_passes_through ascii_lower data path
           [JInt 2; JDict [(str "cs_id", JStr (str "R1"))]] eq_refl eq_refl).
Defined.

(** C10 as stated fails when the list sits under a key that carries a vendor
    term: the entry is deleted, list included. *)
Lemma mixed_list_under_vendor_key_is_dropped :
  let items := [JInt 1; JDict [(str "cs_id", JStr (str "R1"))]] in
  let data := [(str "vendor_contact", JList items)] in
  forallb is_dict items = false
  ∧ at_path [Key (str "vendor_contact")] (JDict data) = Some (JList items)
  ∧ sanitize_vendor_data ascii_lower data = []
  ∧ at_path [Key (str "vendor_contact")]
      (JDict (sanitize_vendor_data ascii_lower data)) = None.
Proof. repeat split. Qed.

(** C7, at the input where the code departs from it: the example payload of
    the specification.  The key [vendor_item] holds the marker [vendor], yet
    none of the eight terms the routine looks for, and is kept; the redacted
    payload is not free of vendor identity. *)
Theorem sanitize_vendor_data_keeps_vendor_item :
  let data :=
    [ (str "vendor_id", JStr (str "v1"));
      (str "description", JStr (str "Built by CustomerScout"));
      (str "nested", JDict [(str "cs_reference", JStr (str "R1"))]);
      (str "items", JList [JDict [(str "vendor_item", JStr (str "x"));
                                  (str "name", JStr (str "CustomerScout Widget"))]]) ] in
  sanitize_vendor_data ascii_lower data
  = [ (str "description", JStr (str "Built by Rylie SEO"));
      (str "nested", JDict []);
      (str "items", JList [JDict [(str "vendor_item", JStr (str "x"));
                                  (str "name", JStr (str "Rylie SEO Widget"))]]) ]
  ∧ has_vendor_marker ascii_lower (str "vendor_item") = true
  ∧ is_vendor_key ascii_lower (str "vendor_item") = false
  ∧ free_of_vendor_identity ascii_lower (sanitize_vendor_data ascii_lower data)
    = false.
Proof. intros data. repeat split; vm_compute; reflexivity. Qed.

(** ** Redaction over the object store *)

Lemma Forall2_impl_Forall_r {A B} (P Q : A → B → Prop) l k :
  Forall2 P l k → Forall (λ y, ∀ x, P x y → Q x y) k → Forall2 Q l k.
Proof.
  induction 1 as [|x y l k Hxy _ IH]; intros Hk; [constructor|].
  apply Forall_cons in Hk as [Hy Hk]. constructor; auto.
Qed.

Lemma represents_mono ρ ρ' v t :
  ρ ⊆ ρ' → represents ρ v t → represents ρ' v t.
Proof.
  intros Hsub. revert v.
  induction t as [| | | | |ts IH|titems IH] using json_nested_ind;
    intros v Hrep; inversion Hrep; subst; try by constructor.
  - eapply represents_list; [by eapply lookup_weaken|].
    by eapply Forall2_impl_Forall_r.
  - eapply represents_dict; [by eapply lookup_weaken|done|].
    eapply Forall2_impl_Forall_r; [done|].
    eapply Forall_impl; [exact IH|]. intros [k t] IHt [k' v] [? ?].
    split; [done|]. by apply IHt.
Qed.

(** *** The caller's objects are never written *)

Lemma bind_Some {A B} (m : M A) (f : A → M B) σ b σ' :
  (m ≫= f) σ = Some (b, σ') ↔ ∃ a σ1, m σ = Some (a, σ1) ∧ f a σ1 = Some (b, σ').
Proof.
  unfold mbind, M_bind, bind.
  destruct (m σ) as [[a σ1]|]; [|naive_solver].
  split; [eauto|]. by intros (? & ? & [= <- <-] & ?).
Qed.

Lemma grows_preserves {A} σ0 (m : M A) : grows m → preserves σ0 m.
Proof. intros Hm σ a σ' Hσ Hrun. etrans; [exact Hσ|]. by eapply Hm. Qed.

Lemma preserves_ret {A} σ0 (a : A) : preserves σ0 (mret a).
Proof. by intros σ ? σ' ? [= _ <-]. Qed.

Lemma preserves_bind {A B} σ0 (m : M A) (f : A → M B) :
  preserves σ0 m → (∀ a, preserves σ0 (f a)) → preserves σ0 (m ≫= f).
Proof.
  intros Hm Hf σ b σ' Hσ (a & σ1 & Hrun1 & Hrun2)%bind_Some.
  eapply Hf; [|done]. by eapply Hm.
Qed.

Lemma grows_new o : grows (new o).
Proof.
  intros σ l σ' [= <- <-]. apply insert_subseteq.
  apply not_elem_of_dom, is_fresh.
Qed.

Lemma new_Some o σ l σ' :
  new o σ = Some (l, σ') → σ !! l = None ∧ σ' = <[l := o]> σ.
Proof. intros [= <- <-]. split; [|done]. apply not_elem_of_dom, is_fresh. Qed.

Lemma load_Some l σ o σ' : load l σ = Some (o, σ') ↔ σ !! l = Some o ∧ σ' = σ.
Proof. unfold load. destruct (σ !! l); naive_solver. Qed.

Lemma grows_load l : grows (load l).
Proof. by intros σ o σ' [_ ->]%load_Some. Qed.

Lemma grows_all_isinstance_dict vs : grows (all_isinstance_dict vs).
Proof. by intros σ b σ' [= _ <-]. Qed.

Lemma preserves_setitem σ0 d key v :
  σ0 !! d = None → preserves σ0 (setitem d key v).
Proof.
  intros Hd σ [] σ' Hσ. unfold setitem.
  destruct (σ !! d) as [[items|]|]; [|done..].
  intros [= <-]. by apply insert_subseteq_r.
Qed.

Lemma preserves_delitem σ0 d key :
  σ0 !! d = None → preserves σ0 (delitem d key).
Proof.
  intros Hd σ [] σ' Hσ. unfold delitem.
  destruct (σ !! d) as [[items|]|]; [|done..].
  destruct (dict_delitem key items); [|done].
  intros [= <-]. by apply insert_subseteq_r.
Qed.

Lemma preserves_for_each {A} σ0 (body : A → M unit) xs :
  (∀ x, preserves σ0 (body x)) → preserves σ0 (for_each body xs).
Proof.
  intros Hbody. induction xs as [|x xs IH]; cbn [for_each].
  - apply preserves_ret.
  - apply preserves_bind; auto.
Qed.

Lemma preserves_comprehension {A B} σ0 (f : A → M B) xs :
  (∀ x, preserves σ0 (f x)) → preserves σ0 (comprehension f xs).
Proof.
  intros Hf. induction xs as [|x xs IH]; cbn [comprehension].
  - apply preserves_ret.
  - apply preserves_bind; [done|]. intros y.
    apply preserves_bind; [done|]. intros ys. apply preserves_ret.
Qed.

Lemma preserves_sanitize_entry lower self σ0 sanitized entry :
  (∀ v, grows (self v)) →
  σ0 !! sanitized = None →
  preserves σ0 (sanitize_entry lower self sanitized entry).
Proof.
  intros Hself Hfresh. destruct entry as [key value]. cbn [sanitize_entry].
  destruct (is_vendor_key lower key); [by apply preserves_delitem|].
  destruct value; try apply preserves_ret.
  { by apply preserves_setitem. }
  apply preserves_bind; [apply grows_preserves, grows_load|].
  intros [items|elems].
  - apply preserves_bind; [by apply grows_preserves|].
    intros v'. by apply preserves_setitem.
  - apply preserves_bind; [apply grows_preserves, grows_all_isinstance_dict|].
    intros [|]; [|apply preserves_ret].
    apply preserves_bind.
    { apply preserves_comprehension. intros v. by apply grows_preserves. }
    intros elems'. apply preserves_bind; [apply grows_preserves, grows_new|].
    intros l'. by apply preserves_setitem.
Qed.

Lemma sanitize_vendor_data_st_Some lower fuel data σ v σ' :
  sanitize_vendor_data_st lower fuel data σ = Some (v, σ') →
  σ ⊆ σ' ∧ ∃ r, v = VRef r ∧ σ !! r = None.
Proof.
  revert data σ v σ'. induction fuel as [|fuel IH]; intros data σ v σ'; [done|].
  destruct data as [| | | | |d]; try done.
  cbn [sanitize_vendor_data_st].
  intros (o & σ1 & [Hd ->]%load_Some & Hrun)%bind_Some.
  destruct o as [items|]; [|done].
  apply bind_Some in Hrun as (sanitized & σ2 & [Hfresh ->]%new_Some & Hrun).
  apply bind_Some in Hrun as ([] & σ3 & Hloop & [= <- <-]).
  split; [|eauto].
  eapply preserves_for_each; [|apply insert_subseteq, Hfresh|exact Hloop].
  intros entry. apply preserves_sanitize_entry; [|done].
  intros w τ w' τ' Hw. by apply IH in Hw as [? _].
Qed.

(** *** The store run computes the tree function *)

Lemma extends_refl σ ρ : ρ ⊆ σ → extends σ ρ σ ρ.
Proof. intros H. by repeat split. Qed.

Lemma extends_trans σ ρ σ1 ρ1 σ2 ρ2 :
  extends σ ρ σ1 ρ1 → extends σ1 ρ1 σ2 ρ2 → extends σ ρ σ2 ρ2.
Proof.
  intros (H1 & H2 & H3) (H4 & H5 & H6). split; [by etrans|]. split; [done|].
  intros l Hl. destruct (H3 l Hl) as [Hl1 Heq1].
  destruct (H6 l Hl1) as [Hl2 Heq2]. split; [done|]. by rewrite Heq2.
Qed.

Lemma extends_write σ ρ d o :
  ρ ⊆ σ → ρ !! d = None → extends σ ρ (<[d := o]> σ) ρ.
Proof.
  intros Hsub Hd. split; [done|]. split; [by apply insert_subseteq_r|].
  intros l Hl. split; [|done].
  rewrite lookup_insert. by case_decide.
Qed.

Lemma extends_alloc σ ρ l o :
  ρ ⊆ σ → σ !! l = None → extends σ ρ (<[l := o]> σ) (<[l := o]> ρ).
Proof.
  intros Hsub Hl.
  assert (ρ !! l = None) as Hρl.
  { destruct (ρ !! l) eqn:E; [|done]. eapply lookup_weaken in E; [|done]. congruence. }
  split; [by apply insert_subseteq|]. split; [by apply insert_mono|].
  intros l' Hl'. assert (l ≠ l') by (intros ->; rewrite Hl in Hl'; by destruct Hl').
  by rewrite !lookup_insert_ne.
Qed.

Lemma dict_delitem_app key (out : list (pystr * val)) v todo :
  key ∉ out.*1 → dict_delitem key (out ++ (key, v) :: todo) = Some (out ++ todo).
Proof.
  induction out as [|[k w] out IH]; cbn [fmap list_fmap app dict_delitem fst].
  - intros _. by rewrite decide_True.
  - intros [Hne Hout]%not_elem_of_cons. rewrite decide_False by done.
    by rewrite IH.
Qed.

Lemma dict_setitem_app key (out : list (pystr * val)) v w todo :
  key ∉ out.*1 →
  dict_setitem key w (out ++ (key, v) :: todo) = out ++ (key, w) :: todo.
Proof.
  induction out as [|[k u] out IH]; cbn [fmap list_fmap app dict_setitem fst].
  - intros _. by rewrite decide_True.
  - intros [Hne Hout]%not_elem_of_cons. rewrite decide_False by done.
    by rewrite IH.
Qed.

Lemma isinstance_dict_represents ρ σ v t :
  ρ ⊆ σ → represents ρ v t → isinstance_dict σ v = is_dict t.
Proof.
  intros Hsub Hrep. inversion Hrep as [| | | | |l vs ts Hl|l items titems Hl];
    subst; try done; cbn.
  - by rewrite (lookup_weaken _ _ _ _ Hl Hsub).
  - by rewrite (lookup_weaken _ _ _ _ Hl Hsub).
Qed.

Lemma all_isinstance_dict_represents ρ σ vs ts :
  ρ ⊆ σ → Forall2 (represents ρ) vs ts →
  forallb (isinstance_dict σ) vs = forallb is_dict ts.
Proof.
  intros Hsub. induction 1 as [|v t vs ts Hv _ IH]; [done|].
  cbn [forallb]. by rewrite IH, (isinstance_dict_represents ρ σ v t).
Qed.

Lemma depth_list_elem t ts : t ∈ ts → (depth t ≤ depth (JList ts))%nat.
Proof.
  induction 1 as [t ts|t t' ts _ IH]; cbn [depth foldr] in *; lia.
Qed.

Lemma depth_dict_elem kt titems :
  kt ∈ titems → (S (depth kt.2) ≤ depth (JDict titems))%nat.
Proof.
  induction 1 as [[k t] titems|[k t] [k' t'] titems _ IH];
    cbn [depth foldr snd] in *; lia.
Qed.

Lemma sanitize_items_app lower f items1 items2 :
  sanitize_items lower f (items1 ++ items2) =
  sanitize_items lower f items1 ++ sanitize_items lower f items2.
Proof.
  induction items1 as [|[k v] items1 IH]; [done|].
  cbn [app]. rewrite !sanitize_items_cons.
  destruct (is_vendor_key lower k); cbn [app]; by rewrite IH.
Qed.

Lemma sanitize_items_keys_sublist lower f items :
  (sanitize_items lower f items).*1 `sublist_of` items.*1.
Proof.
  induction items as [|[k v] items IH]; [done|].
  rewrite sanitize_items_cons.
  destruct (is_vendor_key lower k); cbn [fmap list_fmap fst].
  - by apply sublist_cons.
  - by apply sublist_skip.
Qed.

Lemma entries_keys ρ (items : list (pystr * val)) (titems : dict) :
  Forall2 (λ kv kt, kv.1 = kt.1 ∧ represents ρ kv.2 kt.2) items titems →
  items.*1 = titems.*1.
Proof.
  induction 1 as [|kv kt items titems [Hk _] _ IH]; [done|].
  cbn [fmap list_fmap]. by rewrite Hk, IH.
Qed.

Lemma entries_mono ρ ρ' (items : list (pystr * val)) (titems : dict) :
  ρ ⊆ ρ' →
  Forall2 (λ kv kt, kv.1 = kt.1 ∧ represents ρ kv.2 kt.2) items titems →
  Forall2 (λ kv kt, kv.1 = kt.1 ∧ represents ρ' kv.2 kt.2) items titems.
Proof.
  intros Hsub H. eapply Forall2_impl; [exact H|].
  intros kv kt [? ?]. split; [done|]. by eapply represents_mono.
Qed.

Lemma load_bind {B} σ l o (k : obj → M B) :
  σ !! l = Some o → (load l ≫= k) σ = k o σ.
Proof. intros H. unfold mbind, M_bind, bind, load. by rewrite H. Qed.

Lemma all_isinstance_dict_bind {B} σ vs (k : bool → M B) :
  (all_isinstance_dict vs ≫= k) σ = k (forallb (isinstance_dict σ) vs) σ.
Proof. done. Qed.

Lemma setitem_entry σ ρ sanitized out key value todo w :
  ρ ⊆ σ → ρ !! sanitized = None →
  σ !! sanitized = Some (ODict (out ++ (key, value) :: todo)) →
  key ∉ out.*1 →
  ∃ σ', setitem sanitized key w σ = Some (tt, σ') ∧ extends σ ρ σ' ρ ∧
        σ' !! sanitized = Some (ODict (out ++ [(key, w)] ++ todo)).
Proof.
  intros Hsub Hfresh Hcur Hkey. eexists. split; [|split].
  - unfold setitem. rewrite Hcur. reflexivity.
  - by apply extends_write.
  - rewrite lookup_insert_eq. by rewrite dict_setitem_app.
Qed.

Lemma delitem_entry σ ρ sanitized out key value todo :
  ρ ⊆ σ → ρ !! sanitized = None →
  σ !! sanitized = Some (ODict (out ++ (key, value) :: todo)) →
  key ∉ out.*1 →
  ∃ σ', delitem sanitized key σ = Some (tt, σ') ∧ extends σ ρ σ' ρ ∧
        σ' !! sanitized = Some (ODict (out ++ todo)).
Proof.
  intros Hsub Hfresh Hcur Hkey. eexists. split; [|split].
  - unfold delitem. rewrite Hcur, dict_delitem_app by done. reflexivity.
  - by apply extends_write.
  - by rewrite lookup_insert_eq.
Qed.

Lemma extends_fresh_None σ ρ σ' ρ' l :
  extends σ ρ σ' ρ' → is_Some (σ !! l) → ρ !! l = None → ρ' !! l = None.
Proof. intros (_ & _ & H) Hl Hρ. destruct (H l Hl) as [_ ->]. done. Qed.

Section store_refinement.
Variable lower : pystr → pystr.
Variable self : val → M val.
Variable n : nat.
Hypothesis Hself : refines lower self n.

Lemma comprehension_refines σ ρ vs ts :
  ρ ⊆ σ →
  Forall2 (represents ρ) vs ts →
  forallb is_dict ts = true →
  Forall (λ t, depth t ≤ n)%nat ts →
  ∃ rs σ' ρ',
    comprehension self vs σ = Some (rs, σ') ∧ σ ⊆ σ' ∧ extends σ ρ σ' ρ' ∧
    Forall2 (represents ρ') rs (map (sanitize_value lower) ts).
Proof using Hself.
  revert vs σ ρ. induction ts as [|t ts IH]; intros vs σ ρ Hsub Hrep Hall Hdepth.
  { apply Forall2_nil_inv_r in Hrep as ->.
    exists [], σ, ρ. split; [done|]. split; [done|].
    split; [by apply extends_refl|constructor]. }
  apply Forall2_cons_inv_r in Hrep as (v & vs' & Hv & Hvs & ->).
  cbn [forallb] in Hall. apply andb_true_iff in Hall as [Ht Hall].
  apply Forall_cons in Hdepth as [Hdt Hdepth].
  destruct t as [| | | | | |d]; try done.
  destruct (Hself σ ρ v d Hsub Hv Hdt) as (r & σ1 & ρ1 & Hrun & Hσ1 & Hext1 & Hr).
  assert (ρ1 ⊆ σ1) as Hsub1 by apply Hext1.
  assert (ρ ⊆ ρ1) as Hρ1 by apply Hext1.
  destruct (IH vs' σ1 ρ1) as (rs & σ2 & ρ2 & Hrun2 & Hσ2 & Hext2 & Hrs);
    [done| |done|done|].
  { eapply Forall2_impl; [exact Hvs|]. intros ??. by apply represents_mono. }
  exists (VRef r :: rs), σ2, ρ2. split.
  { cbn [comprehension]. apply bind_Some. do 2 eexists. split; [exact Hrun|].
    apply bind_Some. do 2 eexists. split; [exact Hrun2|done]. }
  split; [by etrans|]. split; [by eapply extends_trans|].
  cbn [map]. constructor; [|done].
  eapply represents_mono; [|exact Hr]. apply Hext2.
Qed.

Lemma sanitize_entry_refines σ ρ sanitized out key value todo t :
  ρ ⊆ σ → ρ !! sanitized = None →
  σ !! sanitized = Some (ODict (out ++ (key, value) :: todo)) →
  key ∉ out.*1 →
  represents ρ value t → (depth t ≤ n)%nat →
  ∃ σ' ρ' added,
    sanitize_entry lower self sanitized (key, value) σ = Some (tt, σ') ∧
    extends σ ρ σ' ρ' ∧
    σ' !! sanitized = Some (ODict (out ++ added ++ todo)) ∧
    Forall2 (λ kv kt, kv.1 = kt.1 ∧ represents ρ' kv.2 kt.2) added
      (sanitize_items lower (sanitize_value lower) [(key, t)]).
Proof using Hself.
  intros Hsub Hfresh Hcur Hkey Hrep Hdepth.
  cbn [sanitize_entry]. rewrite sanitize_items_cons.
  destruct (is_vendor_key lower key) eqn:Hvendor.
  { destruct (delitem_entry σ ρ sanitized out key value todo) as (σ' & ? & ? & ?);
      [done..|].
    exists σ', ρ, []. split; [done|]. split; [done|]. split; [done|]. constructor. }
  assert (∀ w σ1 ρ1,
    ρ1 ⊆ σ1 → ρ1 !! sanitized = None →
    σ1 !! sanitized = Some (ODict (out ++ (key, value) :: todo)) →
    represents ρ1 w (sanitize_value lower t) →
    ∃ σ', setitem sanitized key w σ1 = Some (tt, σ') ∧ extends σ1 ρ1 σ' ρ1 ∧
      σ' !! sanitized = Some (ODict (out ++ [(key, w)] ++ todo)) ∧
      Forall2 (λ kv kt, kv.1 = kt.1 ∧ represents ρ1 kv.2 kt.2) [(key, w)]
        [(key, sanitize_value lower t)]) as Hwrite.
  { intros w σ1 ρ1 Hsub1 Hfresh1 Hcur1 Hw.
    destruct (setitem_entry σ1 ρ1 sanitized out key value todo w) as (σ' & ? & ? & ?);
      [done..|].
    exists σ'. split; [done|]. split; [done|]. split; [done|]. by repeat constructor. }
  assert (sanitize_value lower t = t →
    ∃ σ' ρ' added, @mret M _ _ tt σ = Some (tt, σ') ∧ extends σ ρ σ' ρ' ∧
      σ' !! sanitized = Some (ODict (out ++ added ++ todo)) ∧
      Forall2 (λ kv kt, kv.1 = kt.1 ∧ represents ρ' kv.2 kt.2) added
        [(key, sanitize_value lower t)]) as Hskip.
  { intros ->. exists σ, ρ, [(key, value)]. split; [done|].
    split; [by apply extends_refl|]. split; [done|]. by repeat constructor. }
  inversion Hrep as [| | | |s|l vs ts Hl Hvs|l items titems Hl Hnodup Hitems];
    subst; try by apply Hskip.
  - (* a string *)
    destruct (Hwrite (VStr (str_replace vendor_display_name platform_display_name s))
                σ ρ) as (σ' & ? & ? & ? & ?); [done..|constructor|].
    by exists σ', ρ, [(key, VStr (str_replace vendor_display_name platform_display_name s))].
  - (* a list *)
    assert (σ !! l = Some (OList vs)) as Hσl by by eapply lookup_weaken.
    rewrite (load_bind σ l (OList vs)) by done.
    rewrite all_isinstance_dict_bind.
    rewrite (all_isinstance_dict_represents ρ σ vs ts) by done.
    destruct (forallb is_dict ts) eqn:Hdicts.
    2:{ apply Hskip. cbn. by rewrite Hdicts. }
    destruct (comprehension_refines σ ρ vs ts) as (rs & σ1 & ρ1 & Hrun & Hσ1 & Hext1 & Hrs);
      [done..| |].
    { apply Forall_forall. intros t Ht. etrans; [by apply depth_list_elem|done]. }
    assert (ρ1 ⊆ σ1) as Hsub1 by apply Hext1.
    set (l' := fresh (dom σ1)).
    assert (σ1 !! l' = None) as Hl' by apply not_elem_of_dom, is_fresh.
    set (σ2 := <[l' := OList rs]> σ1). set (ρ2 := <[l' := OList rs]> ρ1).
    assert (extends σ1 ρ1 σ2 ρ2) as Hext2 by by apply extends_alloc.
    assert (is_Some (σ !! sanitized)) as Hsan by by rewrite Hcur.
    assert (is_Some (σ1 !! sanitized)) as Hsan1 by (destruct Hext1 as (_ & _ & H); by apply H).
    destruct (Hwrite (VRef l') σ2 ρ2) as (σ' & Hset & Hext3 & Hcur' & Hadded).
    { apply Hext2. }
    { eapply extends_fresh_None; [exact Hext2|done|].
      eapply extends_fresh_None; [exact Hext1|done..]. }
    { unfold σ2. rewrite lookup_insert_ne.
      - by eapply lookup_weaken.
      - intros <-. rewrite Hl' in Hsan1. by destruct Hsan1. }
    { cbn [sanitize_value]. rewrite Hdicts.
      eapply represents_list; [apply lookup_insert_eq|].
      eapply Forall2_impl; [exact Hrs|]. intros ??.
      apply represents_mono, Hext2. }
    exists σ', ρ2, [(key, VRef l')]. split.
    { apply bind_Some. do 2 eexists. split; [exact Hrun|].
      apply bind_Some. exists l', σ2. split; [done|exact Hset]. }
    split; [|done].
    eapply extends_trans; [exact Hext1|]. by eapply extends_trans.
  - (* a dictionary *)
    assert (σ !! l = Some (ODict items)) as Hσl by by eapply lookup_weaken.
    rewrite (load_bind σ l (ODict items)) by done.
    destruct (Hself σ ρ (VRef l) titems Hsub Hrep Hdepth)
      as (r & σ1 & ρ1 & Hrun & Hσ1 & Hext1 & Hr).
    assert (is_Some (σ !! sanitized)) as Hsan by by rewrite Hcur.
    destruct (Hwrite (VRef r) σ1 ρ1) as (σ' & Hset & Hext2 & Hcur' & Hadded).
    { apply Hext1. }
    { eapply extends_fresh_None; [exact Hext1|done..]. }
    { by eapply lookup_weaken. }
    { exact Hr. }
    exists σ', ρ1, [(key, VRef r)]. split.
    { apply bind_Some. do 2 eexists. split; [exact Hrun|exact Hset]. }
    split; [|done]. by eapply extends_trans.
Qed.

Lemma for_each_refines sanitized ttodo :
  ∀ todo out σ ρ,
  ρ ⊆ σ → ρ !! sanitized = None →
  σ !! sanitized = Some (ODict (out ++ todo)) →
  NoDup (out ++ todo).*1 →
  Forall2 (λ kv kt, kv.1 = kt.1 ∧ represents ρ kv.2 kt.2) todo ttodo →
  Forall (λ kt, depth kt.2 ≤ n)%nat ttodo →
  ∃ σ' ρ' added,
    for_each (sanitize_entry lower self sanitized) todo σ = Some (tt, σ') ∧
    extends σ ρ σ' ρ' ∧
    σ' !! sanitized = Some (ODict (out ++ added)) ∧
    Forall2 (λ kv kt, kv.1 = kt.1 ∧ represents ρ' kv.2 kt.2) added
      (sanitize_items lower (sanitize_value lower) ttodo).
Proof using Hself.
  induction ttodo as [|[key t] ttodo IH];
    intros todo out σ ρ Hsub Hfresh Hcur Hnodup Htodo Hdepth.
  { apply Forall2_nil_inv_r in Htodo as ->.
    exists σ, ρ, []. split; [done|]. split; [by apply extends_refl|].
    split; [done|constructor]. }
  apply Forall2_cons_inv_r in Htodo as ([key' value] & todo' & [Hk Hv] & Htodo & ->).
  cbn [fst snd] in Hk, Hv. subst key'.
  apply Forall_cons in Hdepth as [Hdt Hdepth]. cbn [snd] in Hdt.
  assert (key ∉ out.*1) as Hkey.
  { rewrite fmap_app in Hnodup. apply NoDup_app in Hnodup as (_ & Hdisj & _).
    intros Hin. apply (Hdisj key Hin). cbn. left. }
  destruct (sanitize_entry_refines σ ρ sanitized out key value todo' t)
    as (σ1 & ρ1 & added1 & Hrun1 & Hext1 & Hcur1 & Hadded1); [done..|].
  assert (is_Some (σ !! sanitized)) as Hsan by by rewrite Hcur.
  destruct (IH todo' (out ++ added1) σ1 ρ1)
    as (σ2 & ρ2 & added2 & Hrun2 & Hext2 & Hcur2 & Hadded2).
  { apply Hext1. }
  { by eapply extends_fresh_None. }
  { by rewrite <-(assoc_L (++)). }
  { eapply sublist_NoDup; [exact Hnodup|].
    rewrite !fmap_app, <-(assoc_L (++)). apply sublist_app; [done|].
    change ((key, value) :: todo') with ([(key, value)] ++ todo').
    rewrite fmap_app. apply sublist_app; [|done].
    rewrite (entries_keys _ _ _ Hadded1).
    apply (sanitize_items_keys_sublist lower _ [(key, t)]). }
  { eapply entries_mono; [|exact Htodo]. apply Hext1. }
  { done. }
  exists σ2, ρ2, (added1 ++ added2). split.
  { cbn [for_each]. apply bind_Some. do 2 eexists. split; [exact Hrun1|exact Hrun2]. }
  split; [by eapply extends_trans|].
  split; [by rewrite (assoc_L (++))|].
  change ((key, t) :: ttodo) with ([(key, t)] ++ ttodo).
  rewrite sanitize_items_app. apply Forall2_app; [|done].
  eapply entries_mono; [|exact Hadded1]. apply Hext2.
Qed.
End store_refinement.

Lemma sanitize_vendor_data_st_refines lower fuel :
  refines lower (sanitize_vendor_data_st lower fuel) fuel.
Proof.
  induction fuel as [|fuel IH]; intros σ ρ v t Hsub Hrep Hdepth.
  { cbn in Hdepth. lia. }
  inversion Hrep as [| | | | | |d items titems Hd Hnodup Hitems]; subst.
  assert (σ !! d = Some (ODict items)) as Hσd by by eapply lookup_weaken.
  set (sanitized := fresh (dom σ)).
  assert (σ !! sanitized = None) as Hfresh by apply not_elem_of_dom, is_fresh.
  assert (ρ !! sanitized = None) as Hρfresh.
  { destruct (ρ !! sanitized) eqn:E; [|done].
    eapply lookup_weaken in E; [|done]. congruence. }
  destruct (for_each_refines lower (sanitize_vendor_data_st lower fuel) fuel IH
              sanitized t items [] (<[sanitized := ODict items]> σ) ρ)
    as (σ' & ρ' & added & Hrun & Hext & Hcur & Hadded).
  { by apply insert_subseteq_r. }
  { done. }
  { by rewrite lookup_insert_eq. }
  { done. }
  { done. }
  { apply Forall_forall. intros kt Hkt.
    apply depth_dict_elem in Hkt. lia. }
  assert (sanitize_vendor_data_st lower (S fuel) (VRef d) σ
          = Some (VRef sanitized, σ')) as Hrun'.
  { cbn [sanitize_vendor_data_st]. rewrite (load_bind σ d (ODict items)) by done.
    apply bind_Some. exists sanitized, (<[sanitized := ODict items]> σ).
    split; [done|]. apply bind_Some. exists tt, σ'. by split. }
  assert (σ ⊆ σ') as Hσ by by apply sanitize_vendor_data_st_Some in Hrun' as [? _].
  assert (ρ' !! sanitized = None) as Hρ'fresh.
  { eapply extends_fresh_None; [exact Hext| |done]. by rewrite lookup_insert_eq. }
  destruct Hext as (Hρρ' & Hρ'σ' & Hold).
  exists sanitized, σ', (<[sanitized := ODict added]> ρ').
  split; [done|]. split; [done|]. split.
  { split; [by etrans; [|apply insert_subseteq]|].
    split; [by apply insert_subseteq_l|].
    intros l Hl. split; [by eapply lookup_weaken_is_Some|].
    assert (sanitized ≠ l) by (intros ->; rewrite Hfresh in Hl; by destruct Hl).
    rewrite lookup_insert_ne by done. apply Hold.
    rewrite lookup_insert_ne by done. done. }
  eapply represents_dict; [apply lookup_insert_eq| |].
  - rewrite (entries_keys _ _ _ Hadded).
    eapply sublist_NoDup; [|apply sanitize_items_keys_sublist].
    by rewrite <-(entries_keys _ _ _ Hitems).
  - eapply entries_mono; [|exact Hadded]. by apply insert_subseteq.
Qed.

(** C8.  On every payload laid out in the store as a tree of dictionaries,
    lists and scalars, the routine returns (given the recursion depth the
    payload needs) a dictionary that is a new object, holds the redacted
    tree, and no object that existed before the call has changed: the
    caller's payload denotes the same tree afterwards. *)
Theorem sanitize_vendor_data_total_nonmutating lower σ data (t : dict) :
  represents σ data (JDict t) →
  ∃ r σ',
    sanitize_vendor_data_st lower (depth (JDict t)) data σ = Some (VRef r, σ')
    ∧ σ !! r = None
    ∧ σ ⊆ σ'
    ∧ represents σ' data (JDict t)
    ∧ represents σ' (VRef r) (JDict (sanitize_vendor_data lower t)).
Proof.
  intros Hrep.
  destruct (sanitize_vendor_data_st_refines lower (depth (JDict t)) σ σ data t)
    as (r & σ' & ρ' & Hrun & Hσ & Hext & Hr); [done..|].
  exists r, σ'. split; [done|].
  split; [by apply sanitize_vendor_data_st_Some in Hrun as (_ & ? & [= <-] & ?)|].
  split; [done|]. split; [by eapply represents_mono|].
  eapply represents_mono; [|exact Hr]. apply Hext.
Qed.

(** A payload with a nested dictionary and a list of dictionaries. *)
Lemma sanitize_vendor_data_total_nonmutating_witness :
  let σ : store :=
    <[1%positive := ODict [(str "vendor_id", VStr (str "v1"));
                           (str "nested", VRef 2%positive);
                           (str "items", VRef 3%positive)]]>
    (<[2%positive := ODict [(str "cs_reference", VStr (str "R1"))]]>
    (<[3%positive := OList [VRef 4%positive]]>
    (<[4%positive := ODict [(str "name", VStr (str "CustomerScout Widget"))]]> ∅))) in
  let t : dict :=
    [(str "vendor_id", JStr (str "v1"));
     (str "nested", JDict [(str "cs_reference", JStr (str "R1"))]);
     (str "items", JList [JDict [(str "name", JStr (str "CustomerScout Widget"))]])] in
  represents σ (VRef 1%positive) (JDict t)
  ∧ ∃ r σ',
      sanitize_vendor_data_st ascii_lower (depth (JDict t)) (VRef 1%positive) σ
        = Some (VRef r, σ')
      ∧ σ !! r = None
      ∧ σ ⊆ σ'
      ∧ represents σ' (VRef 1%positive) (JDict t)
      ∧ represents σ' (VRef r) (JDict (sanitize_vendor_data ascii_lower t)).
Proof.
  intros σ t.
  assert (represents σ (VRef 1%positive) (JDict t)) as Hrep.
  { eapply represents_dict; [reflexivity|compute_done|].
    repeat first
      [ apply Forall2_nil_2 | apply Forall2_cons_2 | split; [reflexivity|]
      | apply represents_str
      | eapply represents_dict; [reflexivity|compute_done|]
      | eapply represents_list; [reflexivity|] ]. }
  split; [exact Hrep|].
  exact (sanitize_vendor_data_total_nonmutating ascii_lower σ (VRef 1%positive) t Hrep).
Defined.

(** ** Signature codec and freshness guard *)

Lemma hex_digit_ascii n : (n < 16)%N → (hex_digit n <? 128)%N = true.
Proof. intros H. unfold hex_digit. apply N.ltb_lt. destruct (n <? 10)%N; lia. Qed.

Lemma hexlify_isascii data : isascii (hexlify data) = true.
Proof.
  induction data as [|b data IH]; [done|].
  unfold hexlify, isascii in *. cbn [flat_map app forallb].
  pose proof (Byte.to_N_bounded b) as Hb.
  rewrite !hex_digit_ascii, IH; [done| |].
  - apply N.mod_lt. lia.
  - apply N.Div0.div_lt_upper_bound. lia.
Qed.

Lemma length_hexlify data : length (hexlify data) = (2 * length data)%nat.
Proof.
  induction data as [|b data IH]; [done|].
  unfold hexlify in *. cbn [flat_map app length]. rewrite IH. lia.
Qed.

Lemma compare_digest_same a : isascii a = true → compare_digest a a = Returns true.
Proof. intros H. unfold compare_digest. by rewrite H, bool_decide_eq_true_2. Qed.

Lemma compare_digest_differ a b :
  isascii a = true → isascii b = true → a ≠ b →
  compare_digest a b = Returns false.
Proof.
  intros Ha Hb Hne. unfold compare_digest.
  by rewrite Ha, Hb, bool_decide_eq_false_2.
Qed.

Lemma compare_digest_non_ascii a b :
  isascii b = false → compare_digest a b = Raises TypeError.
Proof. intros Hb. unfold compare_digest. by rewrite Hb, andb_false_r. Qed.



Section signature_facts.
Variable hmac_sha256 : pybytes → pybytes → pybytes.
Variable encode : pystr → pybytes.
Variable decode : pybytes → option pystr.
Variable int_of_str : pystr → option Z.
Variable VENDOR_HMAC_SECRET : pystr.

Local Abbreviation signature := (sign hmac_sha256 encode VENDOR_HMAC_SECRET).
Local Abbreviation verify :=
  (verify_hmac hmac_sha256 encode decode int_of_str VENDOR_HMAC_SECRET).
Local Abbreviation replay_check := (check_timestamp int_of_str).

Lemma sign_isascii timestamp text : isascii (signature timestamp text) = true.
Proof. apply hexlify_isascii. Qed.


(** The signature produced by signing the same timestamp and body passes the
    comparison: what remains is the replay check. *)
Lemma verify_hmac_own_signature now request x_vendor_signature x_vendor_timestamp text :
  decode (body request) = Some text →
  x_vendor_signature = signature x_vendor_timestamp text →
  verify now request x_vendor_signature x_vendor_timestamp
  = replay_check now x_vendor_timestamp.
Proof.
  intros Hbody Hsig. unfold verify_hmac. rewrite Hbody, Hsig.
  by rewrite compare_digest_same by apply sign_isascii.
Qed.

(** Any other signature made of ASCII characters is answered 401. *)
Lemma verify_hmac_other_signature now request x_vendor_signature x_vendor_timestamp text :
  decode (body request) = Some text →
  isascii x_vendor_signature = true →
  x_vendor_signature ≠ signature x_vendor_timestamp text →
  verify now request x_vendor_signature x_vendor_timestamp =
  Raises (HTTPException 401 (str "Invalid signature")).
Proof.
  intros Hbody Hascii Hsig. unfold verify_hmac. rewrite Hbody.
  by rewrite compare_digest_differ by (done || apply sign_isascii).
Qed.

(** A signature with a character outside ASCII makes [compare_digest] raise
    [TypeError], which no handler turns into a 401. *)
Lemma verify_hmac_non_ascii_signature now request x_vendor_signature x_vendor_timestamp text :
  decode (body request) = Some text →
  isascii x_vendor_signature = false →
  verify now request x_vendor_signature x_vendor_timestamp = Raises TypeError.
Proof.
  intros Hbody Hascii. unfold verify_hmac. rewrite Hbody.
  by rewrite compare_digest_non_ascii.
Qed.

(** What a request has shown when the check returns. *)
Lemma verify_hmac_accepted now request x_vendor_signature x_vendor_timestamp b :
  verify now request x_vendor_signature x_vendor_timestamp = Returns b →
  ∃ text timestamp,
    decode (body request) = Some text
    ∧ x_vendor_signature = signature x_vendor_timestamp text
    ∧ int_of_str x_vendor_timestamp = Some timestamp
    ∧ Z.abs (now - timestamp) ≤ 300.
Proof.
  unfold verify_hmac. destruct (decode (body request)) as [text|]; [|done].
  unfold compare_digest.
  destruct (isascii _ && isascii _); [|done].
  destruct (bool_decide _) eqn:Hsig; cbn [mbind outcome_bind negb]; [|done].
  apply bool_decide_eq_true in Hsig.
  unfold check_timestamp.
  destruct (int_of_str _) as [timestamp|] eqn:Hts; [|done].
  destruct (Z.abs (now - timestamp) >? 300) eqn:Hage; [done|].
  intros _. exists text, timestamp. repeat split; [done|lia].
Qed.

(** C4.  Once the signature has matched, a timestamp more than 300 seconds
    away from the current time is rejected as expired, one at most 300
    seconds away (300 included) is accepted, and one that [int] cannot parse
    is rejected as malformed; both rejections carry status 401. *)
Theorem freshness_guard now request x_vendor_signature x_vendor_timestamp text :
  decode (body request) = Some text →
  x_vendor_signature = signature x_vendor_timestamp text →
  (∀ timestamp,
     int_of_str x_vendor_timestamp = Some timestamp →
     (300 < Z.abs (now - timestamp) →
      verify now request x_vendor_signature x_vendor_timestamp
      = Raises (HTTPException 401 (str "Expired timestamp")))
     ∧ (Z.abs (now - timestamp) ≤ 300 →
        verify now request x_vendor_signature x_vendor_timestamp = Returns true))
  ∧ (int_of_str x_vendor_timestamp = None →
     verify now request x_vendor_signature x_vendor_timestamp
     = Raises (HTTPException 401 (str "Invalid timestamp format")))
  ∧ (verify now request x_vendor_signature x_vendor_timestamp ≠ Returns true →
     status_code_of (verify now request x_vendor_signature x_vendor_timestamp) = 401).
Proof.
  intros Hbody Hsig.
  rewrite (verify_hmac_own_signature now request _ _ text Hbody Hsig).
  unfold check_timestamp.
  split; [|split].
  - intros timestamp ->. split; intros H.
    + by rewrite (proj2 (Z.gtb_lt _ _)) by lia.
    + destruct (Z.abs (now - timestamp) >? 300) eqn:E; [|done].
      apply Z.gtb_lt in E. lia.
  - by intros ->.
  - destruct (int_of_str x_vendor_timestamp) as [timestamp|]; [|done].
    by destruct (Z.abs (now - timestamp) >? 300).
Qed.
End signature_facts.

(** The replay window on the reference runtime: a request signed 300 seconds
    before it is verified. *)
Lemma freshness_guard_witness :
  let x_vendor_timestamp := str "1700000000" in
  let x_vendor_signature :=
    sign Ref.hmac_sha256 Ref.encode (str "dev-secret") x_vendor_timestamp (str "{}") in
  let request := {|
    client_host := str "10.0.0.5";
    x_vendor_signature := Some x_vendor_signature;
    x_vendor_timestamp := Some x_vendor_timestamp;
    body := bytes "{}" |} in
  let verify now :=
    verify_hmac Ref.hmac_sha256 Ref.encode Ref.decode Ref.int_of_str (str "dev-secret")
      now request x_vendor_signature x_vendor_timestamp in
  Ref.decode (body request) = Some (str "{}")
  ∧ x_vendor_signature
    = sign Ref.hmac_sha256 Ref.encode (str "dev-secret") x_vendor_timestamp (str "{}")
  ∧ (∀ timestamp,
       Ref.int_of_str x_vendor_timestamp = Some timestamp →
       (300 < Z.abs (1700000300 - timestamp) →
        verify 1700000300 = Raises (HTTPException 401 (str "Expired timestamp")))
       ∧ (Z.abs (1700000300 - timestamp) ≤ 300 → verify 1700000300 = Returns true))
  ∧ (Ref.int_of_str x_vendor_timestamp = None →
     verify 1700000300 = Raises (HTTPException 401 (str "Invalid timestamp format")))
  ∧ (verify 1700000300 ≠ Returns true → status_code_of (verify 1700000300) = 401).
Proof.
  intros x_vendor_timestamp x_vendor_signature request verify.
  split; [reflexivity|]. split; [reflexivity|].
  apply (freshness_guard Ref.hmac_sha256 Ref.encode Ref.decode Ref.int_of_str
           (str "dev-secret") 1700000300 request x_vendor_signature
           x_vendor_timestamp (str "{}")); reflexivity.
Defined.

(** The boundary, evaluated: 300 seconds is accepted, 301 is not. *)
Example freshness_boundary :
  check_timestamp Ref.int_of_str 1700000300 (str "1700000000") = Returns true
  ∧ check_timestamp Ref.int_of_str 1700000301 (str "1700000000")
    = Raises (HTTPException 401 (str "Expired timestamp"))
  ∧ check_timestamp Ref.int_of_str 1699999699 (str "1700000000")
    = Raises (HTTPException 401 (str "Expired timestamp"))
  ∧ check_timestamp Ref.int_of_str 1700000000 (str "17e8")
    = Raises (HTTPException 401 (str "Invalid timestamp format")).
Proof. repeat split. Qed.

(** C1, at the input where the code departs from it: a signature header
    holding the single character U+00E9.  [compare_digest] raises
    [TypeError]; the request is answered 500, not 401. *)
Theorem verify_hmac_non_ascii_signature_not_401 :
  let request := {|
    client_host := str "10.0.0.5";
    x_vendor_signature := Some [233%N];
    x_vendor_timestamp := Some (str "1700000000");
    body := bytes "{}" |} in
  let answer :=
    verify_hmac Ref.hmac_sha256 Ref.encode Ref.decode Ref.int_of_str
      (str "dev-secret") 1700000000 request [233%N] (str "1700000000") in
  [233%N]
  ≠ sign Ref.hmac_sha256 Ref.encode (str "dev-secret") (str "1700000000") (str "{}")
  ∧ answer = Raises TypeError
  ∧ status_code_of answer = 500.
Proof.
  intros request answer.
  assert (answer = Raises TypeError) as H.
  { apply (verify_hmac_non_ascii_signature Ref.hmac_sha256 Ref.encode Ref.decode
             Ref.int_of_str (str "dev-secret") 1700000000 request [233%N]
             (str "1700000000") (str "{}"));
      reflexivity. }
  split; [|split; [exact H|]].
  - intros Heq.
    pose proof (sign_isascii Ref.hmac_sha256 Ref.encode (str "dev-secret")
                  (str "1700000000") (str "{}")) as Hascii.
    rewrite <-Heq in Hascii. discriminate Hascii.
  - clearbody answer. by subst answer.
Qed.

(** ** Network provenance guard *)

(** *** The text of an address *)

Lemma split_on_elem sep s c :
  c ∈ s → c = sep ∨ ∃ field, field ∈ split_on sep s ∧ c ∈ field.
Proof.
  induction s as [|x s IH]; intros Hc; [by apply elem_of_nil in Hc|].
  cbn [split_on]. destruct (decide (x = sep)) as [->|Hx].
  - apply elem_of_cons in Hc as [->|Hc]; [by left|].
    destruct (IH Hc) as [->|(field & Hf & Hin)]; [by left|].
    right. exists field. split; [by apply elem_of_cons; right|done].
  - destruct (split_on sep s) as [|field fields] eqn:E.
    + apply elem_of_cons in Hc as [->|Hc].
      * right. exists [x]. split; apply elem_of_cons; by left.
      * destruct (IH Hc) as [->|(field & Hf & _)]; [by left|].
        by apply elem_of_nil in Hf.
    + apply elem_of_cons in Hc as [->|Hc].
      * right. exists (x :: field). split; apply elem_of_cons; by left.
      * destruct (IH Hc) as [->|(f & Hf & Hin)]; [by left|].
        right. apply elem_of_cons in Hf as [->|Hf].
        -- exists (x :: field). split; apply elem_of_cons; [by left|by right].
        -- exists f. split; [apply elem_of_cons; by right|done].
Qed.

Lemma split_on_not_nil sep s : split_on sep s ≠ [].
Proof.
  destruct s as [|c s]; [done|]. cbn [split_on].
  destruct (decide (c = sep)); [done|]. by destruct (split_on sep s).
Qed.

Lemma split_on_field sep field : sep ∉ field → split_on sep field = [field].
Proof.
  induction field as [|c field IH]; [done|].
  intros [Hc Hfield]%not_elem_of_cons. cbn [split_on].
  rewrite decide_False by congruence. by rewrite IH.
Qed.

Lemma split_on_app sep field rest :
  sep ∉ field → split_on sep (field ++ sep :: rest) = field :: split_on sep rest.
Proof.
  induction field as [|c field IH].
  - intros _. cbn [app split_on]. by rewrite decide_True.
  - intros [Hc Hfield]%not_elem_of_cons. cbn [app split_on].
    rewrite decide_False by congruence. by rewrite IH.
Qed.

(** Joining the fields with the separator gives the text back. *)
Lemma split_on_join sep s : Ref.join [sep] (split_on sep s) = s.
Proof.
  induction s as [|c s IH]; [done|]. cbn [split_on].
  pose proof (split_on_not_nil sep s) as Hne.
  destruct (split_on sep s) as [|field fields]; [done|].
  destruct (decide (c = sep)) as [->|Hc].
  - cbn [Ref.join app]. by rewrite <-IH.
  - rewrite <-IH. by destruct fields.
Qed.

Lemma decimal_value_nonneg digits acc :
  0 ≤ acc → forallb is_ascii_digit digits = true →
  0 ≤ foldl (λ acc c, 10 * acc + (Z.of_N c - 48)) acc digits.
Proof.
  revert acc. induction digits as [|c digits IH]; intros acc Hacc Hd; [done|].
  cbn [forallb] in Hd. apply andb_true_iff in Hd as [Hc Hd].
  cbn [foldl]. apply IH; [|done].
  unfold is_ascii_digit in Hc. apply andb_true_iff in Hc as [Hc _].
  apply N.leb_le in Hc. lia.
Qed.

Lemma parse_octet_Some octet_str value :
  parse_octet octet_str = Some value →
  forallb is_ascii_digit octet_str = true
  ∧ (length octet_str ≤ 3)%nat
  ∧ 0 ≤ value ≤ 255.
Proof.
  unfold parse_octet. destruct octet_str as [|first rest]; [done|].
  destruct (forallb is_ascii_digit (first :: rest)) eqn:Hd; [|done].
  cbn [negb]. destruct (3 <? _)%nat eqn:Hlen; [done|].
  destruct (_ && _); [done|].
  destruct (decimal_value (first :: rest) >? 255) eqn:Hv; [done|].
  intros [= <-]. split; [done|]. apply Nat.ltb_ge in Hlen.
  split; [done|]. split; [by apply decimal_value_nonneg|lia].
Qed.

(** The octets 0 to 255, written as [str] writes them, are read back. *)
Lemma parse_octet_of_octet_texts :
  forallb (λ n, bool_decide (parse_octet (str_of_int n) = Some n)) (seqZ 0 256)
  = true.
Proof. vm_compute. reflexivity. Qed.

Lemma parse_octet_str_of_int n : 0 ≤ n ≤ 255 → parse_octet (str_of_int n) = Some n.
Proof.
  intros Hn. pose proof parse_octet_of_octet_texts as H.
  rewrite forallb_forall in H.
  eapply bool_decide_eq_true_1, H, list_elem_of_In, elem_of_seqZ. lia.
Qed.

(** Every text of one to three digits that is read as an octet is the text
    [str] writes for that octet: no leading zero, no other spelling. *)
Lemma parse_octet_of_digit_texts :
  let digits := N.of_nat <$> seq 48 10 in
  forallb (λ octet_str,
             match parse_octet octet_str with
             | Some n => bool_decide (octet_str = str_of_int n)
             | None => true
             end)
    ((d1 ← digits; [[d1]])
     ++ (d1 ← digits; d2 ← digits; [[d1; d2]])
     ++ (d1 ← digits; d2 ← digits; d3 ← digits; [[d1; d2; d3]]))
  = true.
Proof. vm_compute. reflexivity. Qed.

Lemma is_ascii_digit_elem c :
  is_ascii_digit c = true → c ∈ N.of_nat <$> seq 48 10.
Proof.
  unfold is_ascii_digit. intros [H1 H2]%andb_true_iff.
  apply N.leb_le in H1, H2. apply list_elem_of_fmap.
  exists (N.to_nat c). split; [lia|]. apply elem_of_seq. lia.
Qed.

Lemma parse_octet_canonical octet_str n :
  parse_octet octet_str = Some n → octet_str = str_of_int n.
Proof.
  intros Hparse. pose proof Hparse as (Hdigits & Hlen & _)%parse_octet_Some.
  pose proof parse_octet_of_digit_texts as H. cbv zeta in H.
  rewrite forallb_forall in H. specialize (H octet_str).
  rewrite Hparse in H. eapply bool_decide_eq_true_1, H, list_elem_of_In.
  destruct octet_str as [|d1 [|d2 [|d3 [|]]]]; [done| | | |cbn in Hlen; lia];
    cbn [forallb] in Hdigits;
    repeat match goal with
           | H : _ && _ = true |- _ => apply andb_true_iff in H as [? ?]
           end;
    rewrite !elem_of_app.
  - left. apply list_elem_of_bind. exists d1.
    split; [apply list_elem_of_singleton; done|by apply is_ascii_digit_elem].
  - right. left. apply list_elem_of_bind. exists d1.
    split; [|by apply is_ascii_digit_elem].
    apply list_elem_of_bind. exists d2.
    split; [apply list_elem_of_singleton; done|by apply is_ascii_digit_elem].
  - right. right. apply list_elem_of_bind. exists d1.
    split; [|by apply is_ascii_digit_elem].
    apply list_elem_of_bind. exists d2.
    split; [|by apply is_ascii_digit_elem].
    apply list_elem_of_bind. exists d3.
    split; [apply list_elem_of_singleton; done|by apply is_ascii_digit_elem].
Qed.

Lemma str_of_int_no_dot n : 0 ≤ n ≤ 255 → 46%N ∉ str_of_int n.
Proof.
  intros Hn Hdot. apply parse_octet_str_of_int, parse_octet_Some in Hn as [Hd _].
  rewrite forallb_forall in Hd. apply list_elem_of_In, Hd in Hdot. done.
Qed.

Lemma IPv4Address_Some address value :
  IPv4Address address = Some value →
  forallb is_address_char address = true ∧ 0 ≤ value < 2 ^ 32.
Proof.
  unfold IPv4Address.
  destruct (split_on 46 address) as [|a [|b [|c [|d [|]]]]] eqn:E; try done.
  intros H.
  destruct (parse_octet a) as [va|] eqn:Ha; [|done].
  destruct (parse_octet b) as [vb|] eqn:Hb; [|done].
  destruct (parse_octet c) as [vc|] eqn:Hc; [|done].
  destruct (parse_octet d) as [vd|] eqn:Hd; [|done].
  cbn [mbind option_bind] in H.
  injection H as <-.
  apply parse_octet_Some in Ha as (Ha & _ & ?).
  apply parse_octet_Some in Hb as (Hb & _ & ?).
  apply parse_octet_Some in Hc as (Hc & _ & ?).
  apply parse_octet_Some in Hd as (Hd & _ & ?).
  split; [|lia].
  apply forallb_forall. intros x Hx. apply list_elem_of_In in Hx.
  unfold is_address_char.
  destruct (split_on_elem 46%N address x Hx) as [->|(field & Hf & Hin)]; [done|].
  rewrite E in Hf. apply orb_true_iff. left.
  assert (forallb is_ascii_digit field = true) as Hall.
  { repeat (apply elem_of_cons in Hf as [->|Hf]; [done|]). by apply elem_of_nil in Hf. }
  rewrite forallb_forall in Hall. apply Hall. by apply list_elem_of_In.
Qed.

(** [IPv4Address] reads exactly the dotted-decimal texts of four octets. *)
Lemma IPv4Address_dotted_quad address value :
  IPv4Address address = Some value ↔
  ∃ a b c d,
    (0 ≤ a ≤ 255 ∧ 0 ≤ b ≤ 255 ∧ 0 ≤ c ≤ 255 ∧ 0 ≤ d ≤ 255)
    ∧ address = dotted_quad a b c d
    ∧ value = address_of_octets a b c d.
Proof.
  split.
  - unfold IPv4Address. pose proof (split_on_join 46%N address) as Hjoin.
    destruct (split_on 46 address) as [|ta [|tb [|tc [|td [|]]]]]; try done.
    destruct (parse_octet ta) as [a|] eqn:Ha; [|done].
    destruct (parse_octet tb) as [b|] eqn:Hb; [|done].
    destruct (parse_octet tc) as [c|] eqn:Hc; [|done].
    destruct (parse_octet td) as [d|] eqn:Hd; [|done].
    cbn [mbind option_bind]. intros [= <-]. exists a, b, c, d.
    pose proof Ha as (_ & _ & ?)%parse_octet_Some.
    pose proof Hb as (_ & _ & ?)%parse_octet_Some.
    pose proof Hc as (_ & _ & ?)%parse_octet_Some.
    pose proof Hd as (_ & _ & ?)%parse_octet_Some.
    split; [done|]. split; [|done].
    apply parse_octet_canonical in Ha, Hb, Hc, Hd. subst ta tb tc td.
    by rewrite <-Hjoin.
  - intros (a & b & c & d & (Ha & Hb & Hc & Hd) & -> & ->).
    unfold IPv4Address, dotted_quad.
    change (str ".") with [46%N]. cbn [app].
    rewrite !split_on_app, split_on_field by by apply str_of_int_no_dot.
    by rewrite !parse_octet_str_of_int.
Qed.

(** *** Membership in a network *)

Lemma testbit_above a n : 0 ≤ a < 2 ^ 32 → 32 ≤ n → Z.testbit a n = false.
Proof.
  intros Ha Hn. destruct (decide (a = 0)) as [->|Hne]; [apply Z.bits_0|].
  apply Z.bits_above_log2; [lia|].
  assert (Z.log2 a < 32); [|lia]. apply Z.log2_lt_pow2; lia.
Qed.

Lemma land_netmask network a :
  0 ≤ prefixlen network ≤ 32 → 0 ≤ a < 2 ^ 32 →
  Z.land a (netmask network) = a - a mod 2 ^ (32 - prefixlen network).
Proof.
  intros Hp Ha. unfold netmask.
  set (p := prefixlen network) in *. set (k := 32 - p).
  assert (a - a mod 2 ^ k = Z.shiftl (Z.shiftr a k) k) as ->.
  { rewrite Z.shiftl_mul_pow2, Z.shiftr_div_pow2 by lia.
    pose proof (Z.div_mod a (2 ^ k)). lia. }
  change ALL_ONES with (Z.ones 32).
  apply Z.bits_inj'. intros n Hn.
  rewrite Z.land_spec, Z.lxor_spec, Z.shiftr_spec, !Z.testbit_ones_nonneg by lia.
  rewrite Z.shiftl_spec by lia.
  destruct (decide (n < k)) as [Hlt|Hge].
  - rewrite (Z.testbit_neg_r _ (n - k)) by lia.
    assert ((n <? 32) = true) as -> by lia. assert ((n + p <? 32) = true) as -> by lia.
    apply andb_false_r.
  - rewrite Z.shiftr_spec by lia. replace (n - k + k) with n by lia.
    assert ((n + p <? 32) = false) as -> by lia.
    destruct (decide (n < 32)) as [H32|H32].
    + assert ((n <? 32) = true) as -> by lia. apply andb_true_r.
    + rewrite testbit_above by lia. done.
Qed.

(** For a network with no host bit set, the addresses it contains are the
    [2 ^ (32 - prefixlen)] addresses from the network address on. *)
Lemma network_contains_range network a :
  0 ≤ prefixlen network ≤ 32 →
  0 ≤ network_address network < 2 ^ 32 →
  network_address network mod 2 ^ (32 - prefixlen network) = 0 →
  0 ≤ a < 2 ^ 32 →
  network_contains network a = true ↔
  network_address network ≤ a
  < network_address network + 2 ^ (32 - prefixlen network).
Proof.
  intros Hp Hn Hhost Ha.
  unfold network_contains. rewrite land_netmask by lia.
  set (size := 2 ^ (32 - prefixlen network)) in *.
  assert (0 < size) as Hpos by (apply Z.pow_pos_nonneg; lia).
  pose proof (Z.mod_pos_bound a _ Hpos) as Hr.
  rewrite Z.eqb_eq. split; [lia|]. intros Hrange.
  apply Z.div_exact in Hhost; [|lia].
  set (q := network_address network / size) in *.
  assert (a mod size = a - network_address network); [|lia].
  replace a with ((a - network_address network) + q * size) at 1 by lia.
  rewrite Z_mod_plus_full. apply Z.mod_small. lia.
Qed.

(** C5.  Both loopback addresses pass whatever the allowlist holds.  Any
    other address passes exactly when it is the dotted-decimal text of four
    octets and the address lies in the range of one of the configured
    networks, from its network address up to [2 ^ (32 - prefixlen)]
    addresses further; an address that does not pass is answered 403, and
    one that is no such text is answered 403 as malformed.  [10.0.0.5] is
    allowed under [10.0.0.0/8] and [192.168.1.1] is not. *)
Theorem verify_ip_allowlist_spec :
  (∀ networks request,
     loopback (client_host request) →
     verify_ip_allowlist networks request = Returns true)
  ∧ (∀ networks request,
       (∀ network,
          network ∈ networks →
          0 ≤ prefixlen network ≤ 32
          ∧ 0 ≤ network_address network < 2 ^ 32
          ∧ network_address network mod 2 ^ (32 - prefixlen network) = 0) →
       ¬ loopback (client_host request) →
       (verify_ip_allowlist networks request = Returns true ↔
        ∃ a b c d network,
          (0 ≤ a ≤ 255 ∧ 0 ≤ b ≤ 255 ∧ 0 ≤ c ≤ 255 ∧ 0 ≤ d ≤ 255)
          ∧ client_host request = dotted_quad a b c d
          ∧ network ∈ networks
          ∧ network_address network ≤ address_of_octets a b c d
            < network_address network + 2 ^ (32 - prefixlen network))
       ∧ (verify_ip_allowlist networks request ≠ Returns true →
          status_code_of (verify_ip_allowlist networks request) = 403)
       ∧ ((∀ a b c d,
             0 ≤ a ≤ 255 ∧ 0 ≤ b ≤ 255 ∧ 0 ≤ c ≤ 255 ∧ 0 ≤ d ≤ 255 →
             client_host request ≠ dotted_quad a b c d) →
          verify_ip_allowlist networks request
          = Raises (HTTPException 403 (str "Invalid IP format"))))
  ∧ (let networks :=
       [{| network_address := address_of_octets 10 0 0 0; prefixlen := 8 |}] in
     ∀ signature timestamp payload,
       verify_ip_allowlist networks
         {| client_host := str "10.0.0.5"; x_vendor_signature := signature;
            x_vendor_timestamp := timestamp; body := payload |}
       = Returns true
       ∧ verify_ip_allowlist networks
           {| client_host := str "192.168.1.1"; x_vendor_signature := signature;
              x_vendor_timestamp := timestamp; body := payload |}
         = Raises (HTTPException 403 (str "IP not in allowlist"))).
Proof.
  split; [|split].
  - intros networks request Hloop. unfold verify_ip_allowlist.
    destruct Hloop as [-> | ->]; reflexivity.
  - intros networks request Hnets Hloop. unfold verify_ip_allowlist.
    assert (bool_decide (client_host request = str "127.0.0.1")
            || bool_decide (client_host request = str "::1") = false) as ->.
    { apply orb_false_iff. split; apply bool_decide_eq_false_2;
        intros H; apply Hloop; [by left|by right]. }
    destruct (IPv4Address (client_host request)) as [address|] eqn:Haddr.
    + pose proof Haddr as [_ Hrange]%IPv4Address_Some.
      pose proof Haddr as (a & b & c & d & Hoct & Htext & ->)%IPv4Address_dotted_quad.
      destruct (existsb _ networks) eqn:E.
      * apply existsb_exists in E as (network & Hin & Hcontains).
        apply list_elem_of_In in Hin. destruct (Hnets network Hin) as (? & ? & ?).
        split; [|split]; [|done|].
        -- split; [|done]. intros _. exists a, b, c, d, network.
           split; [done|]. split; [done|]. split; [done|].
           by apply network_contains_range.
        -- intros Hno. by destruct (Hno a b c d Hoct).
      * split; [|split]; [|done|].
        -- split; [done|].
           intros (a' & b' & c' & d' & network & Hoct' & Htext' & Hin & Hbounds).
           assert (IPv4Address (client_host request)
                   = Some (address_of_octets a' b' c' d')) as Haddr'.
           { apply IPv4Address_dotted_quad. by exists a', b', c', d'. }
           rewrite Haddr in Haddr'. injection Haddr' as Heq. rewrite <-Heq in Hbounds.
           destruct (Hnets network Hin) as (? & ? & ?).
           assert (existsb (λ network,
                              network_contains network (address_of_octets a b c d))
                     networks = true) as E'; [|congruence].
           apply existsb_exists. exists network.
           split; [by apply list_elem_of_In|]. by apply network_contains_range.
        -- intros Hno. by destruct (Hno a b c d Hoct).
    + split; [|split]; [|done..].
      split; [done|].
      intros (a & b & c & d & network & Hoct & Htext & _).
      assert (IPv4Address (client_host request) = Some (address_of_octets a b c d))
        as Haddr'; [|congruence].
      apply IPv4Address_dotted_quad. by exists a, b, c, d.
  - intros networks signature timestamp payload. split; reflexivity.
Qed.

(** [10.0.0.0/8] written out: the network address and mask that
    [IPv4Network] computes. *)
Example network_10_8 :
  IPv4Address (str "10.0.0.0") = Some 167772160
  ∧ address_of_octets 10 0 0 0 = 167772160
  ∧ dotted_quad 10 0 0 5 = str "10.0.0.5"
  ∧ netmask {| network_address := 167772160; prefixlen := 8 |} = 4278190080
  ∧ IPv4Address (str "255.0.0.0") = Some 4278190080.
Proof. repeat split. Qed.

(** ** Tenant token verifier and task submission *)

Section tenant_facts.
Variable hmac_sha256 : pybytes → pybytes → pybytes.
Variable encode : pystr → pybytes.
Variable jwt_decode : pystr → jwt_result.
Variable json_dumps : dict → pystr.
Variable client_encode_json : dict → pybytes.
Variable vendor : VendorRequest → vendor_reply.
Variables VENDOR_HMAC_SECRET VENDOR_API_KEY VENDOR_API_URL : pystr.

Local Abbreviation submit :=
  (submit_seo_task hmac_sha256 encode jwt_decode json_dumps client_encode_json
     vendor VENDOR_HMAC_SECRET VENDOR_API_KEY VENDOR_API_URL).

(** The verifier answers 401 in two cases only. *)
Lemma verify_internal_jwt_401 authorization :
  status_code_of (verify_internal_jwt jwt_decode authorization) = 401 ↔
  (∃ message, jwt_decode (bearer_token authorization) = PyJWTError message)
  ∨ (∃ payload, jwt_decode (bearer_token authorization) = Claims payload
                ∧ dict_get (str "sandbox_id") payload = None).
Proof.
  unfold verify_internal_jwt.
  destruct (jwt_decode (bearer_token authorization)) as [payload|message].
  - destruct (dict_get (str "sandbox_id") payload) eqn:E; cbn [status_code_of].
    + split; [done|]. intros [[? [=]]|(? & [= <-] & ?)]. congruence.
    + split; [|done]. intros _. right. eauto.
  - cbn [status_code_of]. split; [|done]. intros _. left. eauto.
Qed.

Lemma verify_internal_jwt_ok authorization payload tenant :
  jwt_decode (bearer_token authorization) = Claims payload →
  dict_get (str "sandbox_id") payload = Some tenant →
  verify_internal_jwt jwt_decode authorization = Returns payload.
Proof. intros H1 H2. unfold verify_internal_jwt. by rewrite H1, H2. Qed.

(** C6.  A task whose token decodes to a claim set bound to a tenant other
    than the [sandbox_id] of the body is answered 403, nothing is logged and
    nothing is forwarded; the token verifier answers 401 exactly when the
    token fails to decode or its claim set has no [sandbox_id]. *)
Theorem tenant_mismatch_is_forbidden now uuid authorization task db payload tenant :
  jwt_decode (bearer_token authorization) = Claims payload →
  dict_get (str "sandbox_id") payload = Some tenant →
  tenant ≠ JStr (sandbox_id task) →
  submit now uuid authorization task db
  = (Raises (HTTPException 403 (str "Sandbox ID mismatch")), db)
  ∧ status_code_of (submit now uuid authorization task db).1 = 403
  ∧ status_code_of (submit now uuid authorization task db).1 ≠ 401
  ∧ ∀ authorization',
      status_code_of (verify_internal_jwt jwt_decode authorization') = 401 ↔
      (∃ message, jwt_decode (bearer_token authorization') = PyJWTError message)
      ∨ (∃ payload', jwt_decode (bearer_token authorization') = Claims payload'
                     ∧ dict_get (str "sandbox_id") payload' = None).
Proof.
  intros Hdecode Htenant Hne.
  assert (submit now uuid authorization task db
          = (Raises (HTTPException 403 (str "Sandbox ID mismatch")), db)) as ->.
  { unfold submit_seo_task.
    rewrite (verify_internal_jwt_ok authorization payload tenant Hdecode Htenant).
    rewrite Htenant.
    assert (ne_str tenant (sandbox_id task) = true) as ->; [|done].
    destruct tenant as [| | | |s| |]; try done. cbn.
    apply negb_true_iff, bool_decide_eq_false_2. congruence. }
  split; [done|]. split; [done|]. split; [done|].
  apply verify_internal_jwt_401.
Qed.
End tenant_facts.

(** A token bound to tenant T1 submitting a task for tenant T2. *)
Lemma tenant_mismatch_is_forbidden_witness :
  let claims := [(str "sub", JStr (str "123")); (str "sandbox_id", JStr (str "T1"))] in
  let jwt_decode := Ref.jwt_decode [(str "token-1", claims)] in
  let task := {|
    task_request_id := str "r-1"; sandbox_id := str "T2"; task_type := str "page";
    task_title := str "New Service Page"; task_description := str "Create a page";
    priority := str "high"; deadline := None;
    task_details := [(str "url", JStr (str "/services/oil-change"))] |} in
  let submit :=
    submit_seo_task Ref.hmac_sha256 Ref.encode jwt_decode
      (Ref.json_dumps Ref.no_floats) (Ref.client_encode_json_default Ref.no_floats)
      Ref.vendor (str "dev-secret") (str "dev-api-key")
      (str "https://api.customerscout.com/v1") in
  jwt_decode (bearer_token (str "Bearer token-1")) = Claims claims
  ∧ dict_get (str "sandbox_id") claims = Some (JStr (str "T1"))
  ∧ JStr (str "T1") ≠ JStr (sandbox_id task)
  ∧ submit 1700000000 (str "id-1") (str "Bearer token-1") task []
    = (Raises (HTTPException 403 (str "Sandbox ID mismatch")), []).
Proof.
  intros claims jwt_decode task submit.
  split; [reflexivity|]. split; [reflexivity|]. split; [discriminate|].
  apply (tenant_mismatch_is_forbidden Ref.hmac_sha256 Ref.encode jwt_decode
           (Ref.json_dumps Ref.no_floats) (Ref.client_encode_json_default Ref.no_floats)
           Ref.vendor (str "dev-secret") (str "dev-api-key")
           (str "https://api.customerscout.com/v1")
           1700000000 (str "id-1") (str "Bearer token-1") task [] claims
           (JStr (str "T1"))); [reflexivity|reflexivity|discriminate].
Defined.

(** ** Inbound endpoints *)

Lemma verify_ip_allowlist_returns networks request b :
  verify_ip_allowlist networks request = Returns b → b = true.
Proof.
  unfold verify_ip_allowlist. destruct (_ || _); [by intros [= <-]|].
  destruct (IPv4Address _); [|done].
  destruct (existsb _ _); [by intros [= <-]|done].
Qed.


Section inbound_facts.
Variable lower : pystr → pystr.
Variable hmac_sha256 : pybytes → pybytes → pybytes.
Variable encode : pystr → pybytes.
Variable decode : pybytes → option pystr.
Variable int_of_str : pystr → option Z.
Variable read_report : Request → body_reading SeoReport.
Variable read_notification : Request → body_reading PublishNotification.
Variable read_upload : Request → form_reading.
Variable VENDOR_HMAC_SECRET : pystr.
Variable ALLOWED_IP_NETWORKS : list IPv4Network.

Local Abbreviation signature_of := (sign hmac_sha256 encode VENDOR_HMAC_SECRET).
Local Abbreviation verify :=
  (verify_hmac hmac_sha256 encode decode int_of_str VENDOR_HMAC_SECRET).
Local Abbreviation allowlist := (verify_ip_allowlist ALLOWED_IP_NETWORKS).
Local Abbreviation dependencies :=
  (inbound_dependencies hmac_sha256 encode decode int_of_str VENDOR_HMAC_SECRET
     ALLOWED_IP_NETWORKS).
Local Abbreviation report_endpoint :=
  (receive_seo_report lower hmac_sha256 encode decode int_of_str read_report
     VENDOR_HMAC_SECRET ALLOWED_IP_NETWORKS).
Local Abbreviation publish_endpoint :=
  (receive_publish_notification lower hmac_sha256 encode decode int_of_str
     read_notification VENDOR_HMAC_SECRET ALLOWED_IP_NETWORKS).
Local Abbreviation file_endpoint :=
  (receive_vendor_file hmac_sha256 encode decode int_of_str read_upload
     VENDOR_HMAC_SECRET ALLOWED_IP_NETWORKS).
Local Abbreviation endpoint :=
  (json_endpoint hmac_sha256 encode decode int_of_str VENDOR_HMAC_SECRET
     ALLOWED_IP_NETWORKS).

(** A body the framework could read as JSON, whether or not it is a
    document of the model. *)
Local Abbreviation readable reading :=
  (reading ≠ Malformed ∧ reading ≠ Unreadable).


Lemma verify_hmac_returns now request signature timestamp b :
  verify now request signature timestamp = Returns b → b = true.
Proof.
  unfold verify_hmac. destruct (decode (body request)) as [text|]; [|done].
  unfold compare_digest.
  destruct (isascii _ && isascii _); [|done].
  destruct (bool_decide _); cbn [mbind outcome_bind negb]; [|done].
  unfold check_timestamp.
  destruct (int_of_str _) as [seconds|]; [|done].
  destruct (Z.abs (now - seconds) >? 300); [done|]. by intros [= <-].
Qed.




(** Without one of the headers the signature check is not called, and the
    provenance guard still is. *)
Lemma inbound_dependencies_unsigned consumed now request :
  x_vendor_signature request = None
  ∨ x_vendor_timestamp request = None →
  dependencies consumed now request = (allowlist request;; mret false).
Proof.
  intros H. unfold inbound_dependencies.
  destruct H as [-> | ->]; [done|]. by destruct (x_vendor_signature request).
Qed.


Lemma json_endpoint_raises {A} (reading : body_reading A) now request db handler e :
  readable reading →
  dependencies false now request = Raises e →
  endpoint reading now request db handler = (Raises e, db).
Proof.
  intros [H1 H2] He. unfold json_endpoint. rewrite He. by destruct reading.
Qed.








(** A request without the signature header from an address the provenance
    guard refuses. *)
Lemma report_endpoint_unsigned now uuid request db e :
  readable (read_report request) →
  x_vendor_signature request = None →
  allowlist request = Raises e →
  report_endpoint now uuid request db = (Raises e, db).
Proof.
  intros Hread Hs He. apply json_endpoint_raises; [done|].
  rewrite inbound_dependencies_unsigned by by left. by rewrite He.
Qed.

(** A body that is JSON but no report: the validation error comes after the
    two guards have passed, and nothing is logged. *)
Lemma report_endpoint_invalid now uuid request db :
  read_report request = Invalid →
  dependencies false now request = Returns true →
  report_endpoint now uuid request db = (Raises RequestValidationError, db).
Proof.
  intros Hread Hdeps. unfold receive_seo_report, json_endpoint.
  by rewrite Hread, Hdeps.
Qed.
End inbound_facts.




(** The same address without the signature header: the signature check is
    not called and the provenance guard answers 403. *)
Example unsigned_request_from_unlisted_address_is_403 :
  let report := {|
    report_request_id := str "r-1"; report_type := str "page_completion";
    report_title := str "Report"; summary := str "Done.";
    report_url := None; metrics := None; report_details := [] |} in
  let text := Ref.json_dumps Ref.no_floats (SeoReport_dict report) in
  let request := {|
    client_host := str "192.168.1.1";
    x_vendor_signature := None;
    x_vendor_timestamp := None;
    body := Ref.encode text |} in
  let read_report := Ref.read_body [(Ref.encode text, report)] in
  let networks := [ {| network_address := 2130706433; prefixlen := 32 |};
                    {| network_address := 167772160; prefixlen := 8 |} ] in
  receive_seo_report ascii_lower Ref.hmac_sha256 Ref.encode Ref.decode
    Ref.int_of_str read_report (str "dev-secret") networks 1700000000
    (str "id-1") request []
  = (Raises (HTTPException 403 (str "IP not in allowlist")), []).
Proof.
  intros report text request read_report networks.
  apply (report_endpoint_unsigned ascii_lower Ref.hmac_sha256 Ref.encode
           Ref.decode Ref.int_of_str read_report (str "dev-secret") networks
           1700000000 (str "id-1") request []).
  - assert (read_report request = Valid report) as -> by reflexivity. by split.
  - reflexivity.
  - reflexivity.
Qed.

(** ** Outbound relay client *)


Section relay_facts.
Variable hmac_sha256 : pybytes → pybytes → pybytes.
Variable encode : pystr → pybytes.
Variable json_dumps : dict → pystr.
Variable client_encode_json : dict → pybytes.
Variables VENDOR_HMAC_SECRET VENDOR_API_KEY VENDOR_API_URL : pystr.

Local Abbreviation outbound :=
  (vendor_request hmac_sha256 encode json_dumps client_encode_json
     VENDOR_HMAC_SECRET VENDOR_API_KEY VENDOR_API_URL).

End relay_facts.


(** The two serialisations of a task part ways after the first key: the
    signed text has a space after the colon, the compact body has none. *)
Lemma compact_body_is_not_the_signed_text (task : SeoTask) :
  Ref.client_encode_json_compact Ref.no_floats (SeoTask_dict task)
  ≠ Ref.encode (Ref.json_dumps Ref.no_floats (SeoTask_dict task)).
Proof.
  intros Heq. apply (f_equal (λ octets, octets !! 14%nat)) in Heq.
  unfold Ref.client_encode_json_compact, Ref.json_dumps, SeoTask_dict in Heq.
  lazy in Heq. discriminate Heq.
Qed.

(** C9, at the input where the code departs from it: a task forwarded with
    an HTTP client that serialises [json=data] compactly, as httpx does from
    version 0.28 on.  The header is the digest over the timestamp, a dot and
    [json.dumps(data)]; the body on the wire is other bytes, for this task
    and for every other, and the relay's own signature check, given the
    headers and the body of the call, answers 401. *)
Theorem outbound_signature_is_not_over_the_body_sent :
  let outbound :=
    vendor_request Ref.hmac_sha256 Ref.encode (Ref.json_dumps Ref.no_floats)
      (Ref.client_encode_json_compact Ref.no_floats) (str "dev-secret")
      (str "dev-api-key") (str "https://api.customerscout.com/v1")
      1700000000 (str "tasks") in
  let task := {|
    task_request_id := str "r-1"; sandbox_id := str "T1"; task_type := str "page";
    task_title := str "New Service Page"; task_description := str "Create a page";
    priority := str "high"; deadline := None;
    task_details := [(str "url", JStr (str "/services/oil-change"))] |} in
  let request := outbound (SeoTask_dict task) in
  let signed_text := Ref.json_dumps Ref.no_floats (SeoTask_dict task) in
  (∀ task', content (outbound (SeoTask_dict task'))
            ≠ Ref.encode (Ref.json_dumps Ref.no_floats (SeoTask_dict task')))
  ∧ get_header (str "X-Timestamp") (headers request) = Some (str "1700000000")
  ∧ get_header (str "X-Signature") (headers request)
    = Some (sign Ref.hmac_sha256 Ref.encode (str "dev-secret") (str "1700000000")
              signed_text)
  ∧ ∃ signature sent_text,
      get_header (str "X-Signature") (headers request) = Some signature
      ∧ Ref.decode (content request) = Some sent_text
      ∧ sent_text ≠ signed_text
      ∧ signature
        ≠ sign Ref.hmac_sha256 Ref.encode (str "dev-secret") (str "1700000000")
            sent_text
      ∧ verify_hmac Ref.hmac_sha256 Ref.encode Ref.decode Ref.int_of_str
          (str "dev-secret") 1700000000
          {| client_host := str "10.0.0.5";
             x_vendor_signature := Some signature;
             x_vendor_timestamp := Some (str "1700000000");
             body := content request |}
          signature (str "1700000000")
        = Raises (HTTPException 401 (str "Invalid signature")).
Proof.
  intros outbound task request signed_text.
  split; [exact compact_body_is_not_the_signed_text|].
  split; [reflexivity|]. split; [reflexivity|].
  set (sent_text :=
         Ref.json_encode Ref.no_floats (str ",") (str ":") false
           (JDict (SeoTask_dict task))).
  set (signature :=
         sign Ref.hmac_sha256 Ref.encode (str "dev-secret") (str "1700000000")
           signed_text).
  assert (Ref.decode (content request) = Some sent_text) as Hsent
    by (vm_compute; reflexivity).
  assert (signature
          ≠ sign Ref.hmac_sha256 Ref.encode (str "dev-secret") (str "1700000000")
              sent_text) as Hne.
  { intros H. vm_compute in H. discriminate H. }
  exists signature, sent_text.
  split; [reflexivity|]. split; [exact Hsent|].
  split; [intros H; vm_compute in H; discriminate H|]. split; [exact Hne|].
  apply (verify_hmac_other_signature Ref.hmac_sha256 Ref.encode Ref.decode
           Ref.int_of_str (str "dev-secret") 1700000000 _ signature
           (str "1700000000") sent_text); [exact Hsent| |exact Hne].
  apply sign_isascii.
Qed.

(** * Further properties of the relay *)

(** ** The reference runtime against published test vectors *)

Example sha256_abc :
  hexlify (Ref.sha256 (bytes "abc"))
  = str "ba7816bf8f01cfea414140de5dae2223b00361a396177a9cb410ff61f20015ad".
Proof. vm_compute. reflexivity. Qed.

Example hmac_sha256_rfc4231_case_2 :
  hexlify (Ref.hmac_sha256 (bytes "Jefe") (bytes "what do ya want for nothing?"))
  = str "5bdcc146bf60754e6a042426089575c75a003f089d2739839dec58b964ec3843".
Proof. vm_compute. reflexivity. Qed.

(** ** Redaction: what is kept *)

Section redaction_keeps.
Variable lower : pystr → pystr.

Lemma starts_with_app_l a b s :
  starts_with (a ++ b) s = true → starts_with a s = true.
Proof.
  revert s. induction a as [|x a IH]; intros s; [done|].
  destruct s as [|y s]; [done|]. cbn [app starts_with].
  intros [Hxy Hrest]%andb_true_iff. rewrite Hxy. by apply IH.
Qed.

Lemma str_contains_app_l a b s :
  str_contains (a ++ b) s = true → str_contains a s = true.
Proof.
  induction s as [|c s IH].
  - cbn [str_contains]. rewrite !orb_false_r. apply starts_with_app_l.
  - cbn [str_contains]. intros [H|H]%orb_true_iff; apply orb_true_iff.
    + left. by apply starts_with_app_l in H.
    + right. by apply IH.
Qed.

(** Every term the routine looks for holds a marker of the specification:
    a key the routine deletes is a key the specification wants gone. *)
Lemma is_vendor_key_has_marker key :
  is_vendor_key lower key = true → has_vendor_marker lower key = true.
Proof.
  unfold is_vendor_key, has_vendor_marker, vendor_fields, vendor_identity_markers.
  cbn [existsb]. rewrite !orb_false_r, !orb_true_iff.
  intros [H|[H|[H|[H|[H|[H|[H|H]]]]]]].
  - left. by apply (str_contains_app_l (str "vendor") (str "_id")).
  - right. right. by apply (str_contains_app_l (str "customerscout") (str "_id")).
  - right. left. by apply (str_contains_app_l (str "cs_") (str "id")).
  - left. by apply (str_contains_app_l (str "vendor") (str "_name")).
  - left. by apply (str_contains_app_l (str "vendor") (str "_email")).
  - left. by apply (str_contains_app_l (str "vendor") (str "_phone")).
  - left. by apply (str_contains_app_l (str "vendor") (str "_contact")).
  - right. by left.
Qed.

Lemma sanitize_value_clean_id v :
  free_of_vendor_identity_value lower v = true → sanitize_value lower v = v.
Proof.
  induction v as [| | | |s|items IH|items IH] using json_nested_ind; try done.
  - cbn. intros H%negb_true_iff. by rewrite display_name_replace_absent.
  - cbn [free_of_vendor_identity_value sanitize_value].
    destruct (forallb is_dict items); [|done]. intros Hall. f_equal.
    induction IH as [|x l Hx _ IHl]; [done|].
    cbn [forallb] in Hall. apply andb_true_iff in Hall as [H1 H2].
    cbn [map]. by rewrite Hx, IHl.
  - cbn [free_of_vendor_identity_value sanitize_value]. intros Hall. f_equal.
    induction IH as [|[key x] l Hx _ IHl]; [done|].
    cbn [forallb] in Hall. apply andb_true_iff in Hall as [H1 H2].
    apply andb_true_iff in H1 as [Hkey Hclean]. apply negb_true_iff in Hkey.
    rewrite sanitize_items_cons.
    destruct (is_vendor_key lower key) eqn:Hcode.
    { apply is_vendor_key_has_marker in Hcode. congruence. }
    cbn [snd] in Hx. by rewrite Hx, IHl.
Qed.

(** A payload that has no marker of the specification in a visited key and
    no vendor display name in a visited string comes back as it went in. *)
Theorem sanitize_vendor_data_clean_is_unchanged (data : dict) :
  free_of_vendor_identity lower data = true →
  sanitize_vendor_data lower data = data.
Proof.
  intros H. apply sanitize_value_clean_id in H. by injection H.
Qed.

(** The keys of the result are the keys of the payload that carry no vendor
    term, in their order: no key is renamed, moved or added. *)
Theorem sanitize_vendor_data_keys (data : dict) :
  (sanitize_vendor_data lower data).*1
  = filter (λ key, is_vendor_key lower key = false) data.*1.
Proof.
  unfold sanitize_vendor_data.
  induction data as [|[key value] data IH]; [done|].
  rewrite sanitize_items_cons. cbn [fmap list_fmap fst].
  rewrite filter_cons. cbn [fst] in *.
  destruct (is_vendor_key lower key) eqn:Hkey.
  - by rewrite decide_False.
  - rewrite decide_True by done. cbn [fmap list_fmap fst]. by rewrite IH.
Qed.

Lemma starts_with_head o needle c s :
  starts_with (o :: needle) (c :: s) = true → o = c.
Proof. by intros [? _]%starts_with_cons. Qed.

Lemma str_replace_without_head o old new s :
  o ∉ s → str_replace (o :: old) new s = s.
Proof.
  induction s as [|c s IH]; [by rewrite str_replace_nil|].
  intros [Hne Hs]%not_elem_of_cons. rewrite str_replace_cons.
  destruct (starts_with (o :: old) (c :: s)) eqn:E.
  - by apply starts_with_head in E.
  - by rewrite IH.
Qed.

(** The replacement is case-sensitive: a string without a capital C, such as
    a lower-case host name or e-mail address of the vendor, is kept as it
    is. *)
Theorem sanitize_value_keeps_lower_case (s : pystr) :
  67%N ∉ s → sanitize_value lower (JStr s) = JStr s.
Proof.
  intros H. cbn [sanitize_value]. f_equal.
  change vendor_display_name with (67%N :: str "ustomerScout").
  by apply str_replace_without_head.
Qed.
End redaction_keeps.

Lemma sanitize_vendor_data_clean_is_unchanged_witness :
  let data := [ (str "title", JStr (str "Test Report"));
                (str "metrics", JDict [(str "wordCount", JInt 850)]);
                (str "tags", JList [JStr (str "CustomerScout")]) ] in
  free_of_vendor_identity ascii_lower data = true
  ∧ sanitize_vendor_data ascii_lower data = data.
Proof.
  intros data. split; [reflexivity|].
  apply (sanitize_vendor_data_clean_is_unchanged ascii_lower data). reflexivity.
Defined.

Lemma sanitize_value_keeps_lower_case_witness :
  (67%N ∉ str "support@customerscout.com")
  ∧ sanitize_value ascii_lower (JStr (str "support@customerscout.com"))
    = JStr (str "support@customerscout.com").
Proof.
  split; [compute_done|].
  apply (sanitize_value_keeps_lower_case ascii_lower). compute_done.
Defined.

(** Redaction never deletes a field of a report, a task or a publish
    notification itself: the field names carry no vendor term. *)
Theorem model_fields_survive_redaction
    (task : SeoTask) (report : SeoReport) (notification : PublishNotification) :
  (sanitize_vendor_data ascii_lower (SeoTask_dict task)).*1 = (SeoTask_dict task).*1
  ∧ (sanitize_vendor_data ascii_lower (SeoReport_dict report)).*1
    = (SeoReport_dict report).*1
  ∧ (sanitize_vendor_data ascii_lower (PublishNotification_dict notification)).*1
    = (PublishNotification_dict notification).*1.
Proof. repeat split. Qed.

(** ** Redaction over the store: any store, and payloads that are not trees *)

(** Whatever the store holds, shared or cyclic: when the call returns, its
    result is an object that did not exist before and every object that did
    is unchanged. *)
Theorem sanitize_vendor_data_st_only_allocates lower fuel data σ v σ' :
  sanitize_vendor_data_st lower fuel data σ = Some (v, σ') →
  (∀ l o, σ !! l = Some o → σ' !! l = Some o)
  ∧ ∃ r, v = VRef r ∧ σ !! r = None ∧ is_Some (σ' !! r).
Proof.
  intros Hrun. pose proof Hrun as Hrun'.
  apply sanitize_vendor_data_st_Some in Hrun as (Hsub & r & -> & Hfresh).
  split; [intros l o Hl; by eapply lookup_weaken|].
  exists r. split; [done|]. split; [done|].
  destruct fuel as [|fuel]; [done|]. cbn [sanitize_vendor_data_st] in Hrun'.
  destruct data as [| | | | |d]; try done.
  apply bind_Some in Hrun' as (o & σ1 & [Hd ->]%load_Some & Hrun').
  destruct o as [items|]; [|done].
  apply bind_Some in Hrun' as (sanitized & σ2 & [Hnew ->]%new_Some & Hrun').
  apply bind_Some in Hrun' as ([] & σ3 & Hloop & [= <- <-]).
  assert (∀ todo τ τ',
    is_Some (τ !! sanitized) →
    (∀ w τ1 w' τ1', sanitize_vendor_data_st lower fuel w τ1 = Some (w', τ1') → τ1 ⊆ τ1') →
    for_each (sanitize_entry lower (sanitize_vendor_data_st lower fuel) sanitized)
      todo τ = Some (tt, τ') →
    is_Some (τ' !! sanitized)) as Hkeep.
  { clear. induction todo as [|[key value] todo IH]; intros τ τ' Hτ Hgrow.
    { by intros [= <-]. }
    cbn [for_each]. intros ([] & τ1 & Hstep & Hrest)%bind_Some.
    eapply IH; [|done|exact Hrest].
    cbn [sanitize_entry] in Hstep.
    assert (∀ τa τb k w, is_Some (τa !! sanitized) →
              setitem sanitized k w τa = Some (tt, τb) → is_Some (τb !! sanitized))
      as Hset.
    { intros τa τb k w _. unfold setitem.
      destruct (τa !! sanitized) as [[its|]|]; [|done..].
      intros [= <-]. by rewrite lookup_insert_eq. }
    destruct (is_vendor_key lower key).
    { revert Hstep. unfold delitem.
      destruct (τ !! sanitized) as [[its|]|]; [|done..].
      destruct (dict_delitem key its); [|done].
      intros [= <-]. by rewrite lookup_insert_eq. }
    destruct value as [| | | |s|r]; try (by injection Hstep as <-).
    { by eapply Hset. }
    apply bind_Some in Hstep as (o & τ2 & [Hr ->]%load_Some & Hstep).
    destruct o as [its|elems].
    - apply bind_Some in Hstep as (w' & τ3 & Hcall & Hstep).
      eapply Hset; [|exact Hstep]. apply Hgrow in Hcall.
      by eapply lookup_weaken_is_Some.
    - apply bind_Some in Hstep as (b & τ3 & [= <- <-] & Hstep).
      destruct (forallb _ elems); [|by injection Hstep as <-].
      apply bind_Some in Hstep as (elems' & τ4 & Hcomp & Hstep).
      apply bind_Some in Hstep as (l' & τ5 & [Hl' ->]%new_Some & Hstep).
      eapply Hset; [|exact Hstep].
      assert (τ ⊆ τ4) as Hsub4.
      { eapply (preserves_comprehension τ); [|done|exact Hcomp].
        intros w. apply grows_preserves. intros ????. by eapply Hgrow. }
      rewrite lookup_insert_ne.
      + by eapply lookup_weaken_is_Some.
      + intros <-. eapply lookup_weaken_is_Some in Hτ; [|exact Hsub4].
        rewrite Hl' in Hτ. by destruct Hτ. }
  eapply Hkeep; [|intros w τ1 w' τ1' H; by apply sanitize_vendor_data_st_Some in H as [? _]
                 |exact Hloop].
  by rewrite lookup_insert_eq.
Qed.

Lemma sanitize_vendor_data_st_only_allocates_witness :
  let σ : store :=
    <[1%positive := ODict [(str "vendor_id", VStr (str "v1"));
                           (str "shared", VRef 2%positive);
                           (str "again", VRef 2%positive)]]>
    (<[2%positive := ODict [(str "name", VStr (str "CustomerScout"))]]> ∅) in
  ∃ v σ',
    sanitize_vendor_data_st ascii_lower 2 (VRef 1%positive) σ = Some (v, σ')
    ∧ (∀ l o, σ !! l = Some o → σ' !! l = Some o)
    ∧ ∃ r, v = VRef r ∧ σ !! r = None ∧ is_Some (σ' !! r).
Proof.
  intros σ.
  destruct (sanitize_vendor_data_st ascii_lower 2 (VRef 1%positive) σ)
    as [[v σ']|] eqn:Hrun.
  - exists v, σ'. split; [reflexivity|].
    exact (sanitize_vendor_data_st_only_allocates ascii_lower 2 (VRef 1%positive)
             σ v σ' Hrun).
  - exfalso. vm_compute in Hrun. discriminate Hrun.
Defined.

Lemma bind_None {A B} (m : M A) (f : A → M B) σ :
  (m ≫= f) σ = None ↔ m σ = None ∨ ∃ a σ1, m σ = Some (a, σ1) ∧ f a σ1 = None.
Proof.
  unfold mbind, M_bind, bind. destruct (m σ) as [[a σ1]|].
  - split; [eauto|]. by intros [?|(? & ? & [= <- <-] & ?)].
  - split; [eauto|done].
Qed.

Lemma for_each_raises {A} σ0 (body : A → M unit) xs x :
  x ∈ xs →
  (∀ y, preserves σ0 (body y)) →
  (∀ τ, σ0 ⊆ τ → body x τ = None) →
  ∀ τ, σ0 ⊆ τ → for_each body xs τ = None.
Proof.
  intros Hx Hpres Hfail. induction Hx as [x xs|x y xs _ IH]; intros τ Hτ.
  - cbn [for_each]. apply bind_None. left. by apply Hfail.
  - cbn [for_each]. apply bind_None.
    destruct (body y τ) as [[[] τ1]|] eqn:E; [|by left].
    right. exists tt, τ1. split; [done|]. apply IH; [done|]. exact (Hpres y τ tt τ1 Hτ E).
Qed.

(** A dictionary that holds itself under a key that is kept makes the
    recursion go on until the recursion limit: the call raises whatever the
    limit is. *)
Theorem sanitize_vendor_data_st_cyclic_raises lower d items key :
  (key, VRef d) ∈ items →
  is_vendor_key lower key = false →
  ∀ fuel σ,
    σ !! d = Some (ODict items) →
    sanitize_vendor_data_st lower fuel (VRef d) σ = None.
Proof.
  intros Hin Hkey. induction fuel as [|fuel IH]; intros σ Hd; [done|].
  cbn [sanitize_vendor_data_st]. rewrite (load_bind σ d (ODict items)) by done.
  apply bind_None. right.
  set (sanitized := fresh (dom σ)).
  assert (σ !! sanitized = None) as Hfresh by apply not_elem_of_dom, is_fresh.
  exists sanitized, (<[sanitized := ODict items]> σ). split; [done|].
  apply bind_None. left.
  eapply (for_each_raises σ); [exact Hin| | |by apply insert_subseteq].
  - intros entry. apply preserves_sanitize_entry; [|done].
    intros w τ w' τ' Hw. by apply sanitize_vendor_data_st_Some in Hw as [? _].
  - intros τ Hτ. cbn [sanitize_entry]. rewrite Hkey.
    assert (τ !! d = Some (ODict items)) as Hτd by by eapply lookup_weaken.
    rewrite (load_bind τ d (ODict items)) by done.
    apply bind_None. left. by apply IH.
Qed.

Lemma sanitize_vendor_data_st_cyclic_raises_witness :
  let items := [(str "title", VStr (str "Report")); (str "parent", VRef 1%positive)] in
  let σ : store := <[1%positive := ODict items]> ∅ in
  (str "parent", VRef 1%positive) ∈ items
  ∧ is_vendor_key ascii_lower (str "parent") = false
  ∧ σ !! 1%positive = Some (ODict items)
  ∧ sanitize_vendor_data_st ascii_lower 1000 (VRef 1%positive) σ = None.
Proof.
  intros items σ.
  assert ((str "parent", VRef 1%positive) ∈ items) as Hin.
  { apply list_elem_of_further, list_elem_of_here. }
  split; [exact Hin|]. split; [reflexivity|]. split; [reflexivity|].
  apply (sanitize_vendor_data_st_cyclic_raises ascii_lower 1%positive items
           (str "parent") Hin eq_refl 1000%nat σ). reflexivity.
Defined.

(** ** Signature check: further behaviour *)

Lemma split_at_dot (ts ts' text text' : pystr) :
  46%N ∉ ts → 46%N ∉ ts' →
  ts ++ 46%N :: text = ts' ++ 46%N :: text' → ts = ts' ∧ text = text'.
Proof.
  revert ts'. induction ts as [|c ts IH]; intros [|c' ts'] H1 H2 Heq.
  - by injection Heq as ->.
  - injection Heq as <- _. by apply not_elem_of_cons in H2 as [? _].
  - injection Heq as -> _. by apply not_elem_of_cons in H1 as [? _].
  - injection Heq as -> Heq.
    apply not_elem_of_cons in H1 as [_ H1]. apply not_elem_of_cons in H2 as [_ H2].
    destruct (IH ts' H1 H2 Heq) as [-> ->]. done.
Qed.

Section signature_more.
Variable hmac_sha256 : pybytes → pybytes → pybytes.
Variable encode : pystr → pybytes.
Variable decode : pybytes → option pystr.
Variable int_of_str : pystr → option Z.
Variable VENDOR_HMAC_SECRET : pystr.

Local Abbreviation signature := (sign hmac_sha256 encode VENDOR_HMAC_SECRET).
Local Abbreviation verify :=
  (verify_hmac hmac_sha256 encode decode int_of_str VENDOR_HMAC_SECRET).





(** The signature covers the concatenation only.  Moving a dot-separated
    piece between the timestamp and the body leaves it unchanged; among
    timestamps without a dot, as every timestamp made of digits is, the signed
    text determines both the timestamp and the body. *)
Theorem signed_message_boundary :
  (∀ timestamp text,
     signature timestamp text
     = hexlify (hmac_sha256 (encode VENDOR_HMAC_SECRET)
                  (encode (signed_message timestamp text))))
  ∧ (∀ a b c, signature a (b ++ str "." ++ c) = signature (a ++ str "." ++ b) c)
  ∧ (∀ timestamp timestamp' text text',
       46%N ∉ timestamp → 46%N ∉ timestamp' →
       signed_message timestamp text = signed_message timestamp' text' →
       timestamp = timestamp' ∧ text = text').
Proof.
  split; [done|]. split.
  - intros a b c. unfold sign. by rewrite <-!(assoc_L (++)).
  - intros ts ts' text text' H1 H2 Heq. by apply split_at_dot.
Qed.
End signature_more.



(** ** Provenance: address texts *)

(** A peer address written with any character other than digits and dots is
    refused as malformed, whatever the allowlist holds: only [::1] among the
    IPv6 texts, and no host name, gets through. *)
Theorem address_with_other_characters_is_refused networks request :
  forallb is_address_char (client_host request) = false →
  client_host request ≠ str "::1" →
  verify_ip_allowlist networks request
  = Raises (HTTPException 403 (str "Invalid IP format")).
Proof.
  intros Hchars Hne. unfold verify_ip_allowlist.
  rewrite (bool_decide_eq_false_2 (client_host request = str "::1")) by done.
  destruct (bool_decide (client_host request = str "127.0.0.1")) eqn:E.
  { apply bool_decide_eq_true in E. by rewrite E in Hchars. }
  cbn [orb].
  destruct (IPv4Address (client_host request)) as [address|] eqn:Haddr; [|done].
  apply IPv4Address_Some in Haddr as [Haddr _]. congruence.
Qed.

(** Adding networks to the allowlist never turns an accepted address away,
    and with no network configured only the two loopback texts pass. *)
Theorem allowlist_is_monotone :
  (∀ networks networks' request,
     networks ⊆ networks' →
     verify_ip_allowlist networks request = Returns true →
     verify_ip_allowlist networks' request = Returns true)
  ∧ (∀ request,
       verify_ip_allowlist [] request = Returns true ↔ loopback (client_host request)).
Proof.
  split.
  - intros networks networks' request Hsub. unfold verify_ip_allowlist.
    destruct (_ || _); [done|].
    destruct (IPv4Address (client_host request)) as [address|]; [|done].
    destruct (existsb _ networks) eqn:E; [|done]. intros _.
    apply existsb_exists in E as (network & Hin & Hcontains).
    assert (existsb (λ network, network_contains network address) networks' = true)
      as ->; [|done].
    apply existsb_exists. exists network. split; [|done].
    apply list_elem_of_In, Hsub. by apply list_elem_of_In.
  - intros request. unfold verify_ip_allowlist, loopback.
    destruct (bool_decide (client_host request = str "127.0.0.1")) eqn:E1.
    { apply bool_decide_eq_true in E1. split; [by left|done]. }
    destruct (bool_decide (client_host request = str "::1")) eqn:E2.
    { apply bool_decide_eq_true in E2. split; [by right|done]. }
    apply bool_decide_eq_false in E1, E2. cbn [orb existsb].
    destruct (IPv4Address (client_host request)); split; (done || by intros [?|?]).
Qed.

(** An IPv4-mapped IPv6 text of an allowed address. *)
Lemma address_with_other_characters_is_refused_witness :
  let networks := [{| network_address := 167772160; prefixlen := 8 |}] in
  let request := {|
    client_host := str "::ffff:10.0.0.5";
    x_vendor_signature := None;
    x_vendor_timestamp := None;
    body := bytes "{}" |} in
  forallb is_address_char (client_host request) = false
  ∧ client_host request ≠ str "::1"
  ∧ verify_ip_allowlist networks request
    = Raises (HTTPException 403 (str "Invalid IP format")).
Proof.
  intros networks request.
  split; [reflexivity|]. split; [discriminate|].
  apply (address_with_other_characters_is_refused networks request);
    [reflexivity|discriminate].
Defined.

(** ** Tenant token: the header *)

(** The [Bearer ] prefix of the header is optional: a token sent bare is
    verified as the same token sent with the prefix.  The prefix is taken
    off once. *)
Theorem bearer_prefix_is_optional jwt_decode token :
  starts_with (str "Bearer ") token = false →
  verify_internal_jwt jwt_decode (str "Bearer " ++ token)
  = verify_internal_jwt jwt_decode token
  ∧ bearer_token (str "Bearer " ++ str "Bearer " ++ token) = str "Bearer " ++ token.
Proof.
  intros Hbare. unfold verify_internal_jwt.
  assert (bearer_token (str "Bearer " ++ token) = token) as -> by done.
  assert (bearer_token token = token) as ->; [|done].
  unfold bearer_token. by rewrite Hbare.
Qed.

Lemma bearer_prefix_is_optional_witness :
  let claims := [(str "sandbox_id", JStr (str "T1"))] in
  let jwt_decode := Ref.jwt_decode [(str "token-1", claims)] in
  starts_with (str "Bearer ") (str "token-1") = false
  ∧ verify_internal_jwt jwt_decode (str "Bearer " ++ str "token-1")
    = verify_internal_jwt jwt_decode (str "token-1")
  ∧ verify_internal_jwt jwt_decode (str "token-1") = Returns claims.
Proof.
  intros claims jwt_decode. split; [reflexivity|]. split; [|reflexivity].
  apply (bearer_prefix_is_optional jwt_decode (str "token-1")). reflexivity.
Defined.

(** ** Task submission: audit row and vendor outcome *)

Section submission_more.
Variable hmac_sha256 : pybytes → pybytes → pybytes.
Variable encode : pystr → pybytes.
Variable jwt_decode : pystr → jwt_result.
Variable json_dumps : dict → pystr.
Variable client_encode_json : dict → pybytes.
Variable vendor : VendorRequest → vendor_reply.
Variables VENDOR_HMAC_SECRET VENDOR_API_KEY VENDOR_API_URL : pystr.

Local Abbreviation submit :=
  (submit_seo_task hmac_sha256 encode jwt_decode json_dumps client_encode_json
     vendor VENDOR_HMAC_SECRET VENDOR_API_KEY VENDOR_API_URL).
Local Abbreviation forward :=
  (forward_to_vendor hmac_sha256 encode json_dumps client_encode_json
     vendor VENDOR_HMAC_SECRET VENDOR_API_KEY VENDOR_API_URL).
Local Abbreviation outbound :=
  (vendor_request hmac_sha256 encode json_dumps client_encode_json
     VENDOR_HMAC_SECRET VENDOR_API_KEY VENDOR_API_URL).

(** All that a task submission can do.  A token or tenant failure is
    answered 401 or 403 and leaves the audit table as it was.  Otherwise
    one outbound row with the task as posted is committed before the vendor
    is called, and stays whether the call succeeds or fails; on success the
    answer is the same four fields whatever the vendor replied. *)
Theorem submit_seo_task_outcomes now uuid authorization task db :
  let row := {|
    id := uuid;
    request_id := Some (task_request_id task);
    direction := str "outbound";
    message_type := str "task";
    payload := SeoTask_dict task;
    hmac_signature := None;
    ip_address := None;
    processed := false |} in
  let result := submit now uuid authorization task db in
  (∃ detail, result = (Raises (HTTPException 401 detail), db))
  ∨ result = (Raises (HTTPException 403 (str "Sandbox ID mismatch")), db)
  ∨ (∃ e, forward now (str "tasks") (SeoTask_dict task) = Raises e
          ∧ result = (Raises e, db ++ [row]))
  ∨ (∃ vendor_response,
       forward now (str "tasks") (SeoTask_dict task) = Returns vendor_response
       ∧ result = (Returns [ (str "success", JBool true);
                             (str "message", JStr (str "Task submitted successfully"));
                             (str "task_id", JStr (task_request_id task));
                             (str "status", JStr (str "pending")) ],
                   db ++ [row])).
Proof.
  intros row result. unfold result, submit_seo_task, verify_internal_jwt.
  destruct (jwt_decode (bearer_token authorization)) as [claims|message];
    [|left; eauto].
  destruct (dict_get (str "sandbox_id") claims) as [tenant|] eqn:Htenant;
    [|left; eauto].
  rewrite Htenant.
  destruct (ne_str tenant (sandbox_id task)); [by right; left|].
  unfold log_communication. fold row.
  destruct (forward now (str "tasks") (SeoTask_dict task)) as [response|e].
  - do 3 right. by exists response.
  - do 2 right. left. by exists e.
Qed.

(** When the vendor answers with an error status, the caller gets that
    status with the vendor's response text in the detail, as the vendor
    wrote it; the task is in the audit table all the same. *)
Theorem vendor_error_reaches_caller
    now uuid authorization task db claims status_code text :
  jwt_decode (bearer_token authorization) = Claims claims →
  dict_get (str "sandbox_id") claims = Some (JStr (sandbox_id task)) →
  vendor (outbound now (str "tasks") (SeoTask_dict task))
  = HTTPStatusError status_code text →
  ∃ row,
    submit now uuid authorization task db
    = (Raises (HTTPException status_code (str "Vendor API error: " ++ text)),
       db ++ [row])
    ∧ payload row = SeoTask_dict task.
Proof.
  intros Hdecode Htenant Hvendor.
  unfold submit_seo_task.
  rewrite (verify_internal_jwt_ok _ authorization claims _ Hdecode Htenant), Htenant.
  assert (ne_str (JStr (sandbox_id task)) (sandbox_id task) = false) as ->.
  { cbn. by rewrite bool_decide_eq_true_2. }
  unfold log_communication, forward_to_vendor. rewrite Hvendor.
  eexists. split; reflexivity.
Qed.
End submission_more.

(** A vendor that turns the task down, naming itself in the text. *)
Lemma vendor_error_reaches_caller_witness :
  let claims := [(str "sandbox_id", JStr (str "T1"))] in
  let jwt_decode := Ref.jwt_decode [(str "token-1", claims)] in
  let vendor := λ _ : VendorRequest,
    HTTPStatusError 422 (str "CustomerScout: unknown task type") in
  let task := {|
    task_request_id := str "r-1"; sandbox_id := str "T1"; task_type := str "page";
    task_title := str "New Service Page"; task_description := str "Create a page";
    priority := str "high"; deadline := None;
    task_details := [(str "url", JStr (str "/services/oil-change"))] |} in
  let submit :=
    submit_seo_task Ref.hmac_sha256 Ref.encode jwt_decode
      (Ref.json_dumps Ref.no_floats) (Ref.client_encode_json_default Ref.no_floats)
      vendor (str "dev-secret") (str "dev-api-key")
      (str "https://api.customerscout.com/v1") in
  jwt_decode (bearer_token (str "Bearer token-1")) = Claims claims
  ∧ dict_get (str "sandbox_id") claims = Some (JStr (sandbox_id task))
  ∧ ∃ row,
      submit 1700000000 (str "id-1") (str "Bearer token-1") task []
      = (Raises (HTTPException 422
                   (str "Vendor API error: "
                    ++ str "CustomerScout: unknown task type")),
         [] ++ [row])
      ∧ payload row = SeoTask_dict task.
Proof.
  intros claims jwt_decode vendor task submit.
  split; [reflexivity|]. split; [reflexivity|].
  apply (vendor_error_reaches_caller Ref.hmac_sha256 Ref.encode jwt_decode
           (Ref.json_dumps Ref.no_floats) (Ref.client_encode_json_default Ref.no_floats)
           vendor (str "dev-secret") (str "dev-api-key")
           (str "https://api.customerscout.com/v1")
           1700000000 (str "id-1") (str "Bearer token-1") task [] claims
           422 (str "CustomerScout: unknown task type"));
    reflexivity.
Defined.

(** ** Inbound endpoints: what reaches the audit table *)

Section inbound_more.
Variable lower : pystr → pystr.
Variable hmac_sha256 : pybytes → pybytes → pybytes.
Variable encode : pystr → pybytes.
Variable decode : pybytes → option pystr.
Variable int_of_str : pystr → option Z.
Variable read_report : Request → body_reading SeoReport.
Variable read_notification : Request → body_reading PublishNotification.
Variable read_upload : Request → form_reading.
Variable VENDOR_HMAC_SECRET : pystr.
Variable ALLOWED_IP_NETWORKS : list IPv4Network.

Local Abbreviation signature_of := (sign hmac_sha256 encode VENDOR_HMAC_SECRET).
Local Abbreviation verify :=
  (verify_hmac hmac_sha256 encode decode int_of_str VENDOR_HMAC_SECRET).
Local Abbreviation allowlist := (verify_ip_allowlist ALLOWED_IP_NETWORKS).
Local Abbreviation dependencies :=
  (inbound_dependencies hmac_sha256 encode decode int_of_str VENDOR_HMAC_SECRET
     ALLOWED_IP_NETWORKS).
Local Abbreviation report_endpoint :=
  (receive_seo_report lower hmac_sha256 encode decode int_of_str read_report
     VENDOR_HMAC_SECRET ALLOWED_IP_NETWORKS).
Local Abbreviation publish_endpoint :=
  (receive_publish_notification lower hmac_sha256 encode decode int_of_str
     read_notification VENDOR_HMAC_SECRET ALLOWED_IP_NETWORKS).
Local Abbreviation file_endpoint :=
  (receive_vendor_file hmac_sha256 encode decode int_of_str read_upload
     VENDOR_HMAC_SECRET ALLOWED_IP_NETWORKS).

(** What a request has shown when every dependency has been called and none
    has raised. *)
Local Abbreviation passed_both_guards now request signature :=
  (∃ timestamp text seconds,
     x_vendor_signature request = Some signature
     ∧ x_vendor_timestamp request = Some timestamp
     ∧ decode (body request) = Some text
     ∧ signature = signature_of timestamp text
     ∧ int_of_str timestamp = Some seconds
     ∧ Z.abs (now - seconds) ≤ 300
     ∧ allowlist request = Returns true).

Lemma inbound_dependencies_called now request :
  dependencies false now request = Returns true →
  ∃ signature, passed_both_guards now request signature.
Proof.
  unfold inbound_dependencies.
  destruct (x_vendor_signature request) as [signature|];
    [destruct (x_vendor_timestamp request) as [timestamp|]|].
  - destruct (verify now request signature timestamp) as [b|e] eqn:Hverify; [|done].
    pose proof (verify_hmac_returns _ _ _ _ _ _ _ _ _ _ Hverify) as ->.
    apply verify_hmac_accepted in Hverify
      as (text & seconds & Hbody & Hsig & Hint & Hage).
    cbn [mbind outcome_bind].
    destruct (allowlist request) as [b|e] eqn:Hallow; [|done].
    pose proof (verify_ip_allowlist_returns _ _ _ Hallow) as ->. intros _.
    by exists signature, timestamp, text, seconds.
  - by destruct (allowlist request).
  - by destruct (allowlist request).
Qed.

Lemma inbound_dependencies_consumed_returns now request b :
  dependencies true now request = Returns b → b = false.
Proof.
  unfold inbound_dependencies.
  destruct (x_vendor_signature request) as [signature|];
    [destruct (x_vendor_timestamp request) as [timestamp|]|]; [done|..];
    (destruct (allowlist request); [by intros [= <-]|done]).
Qed.

Lemma json_endpoint_outcomes {A} (reading : body_reading A) now request db handler :
  (∃ e, json_endpoint hmac_sha256 encode decode int_of_str VENDOR_HMAC_SECRET
          ALLOWED_IP_NETWORKS reading now request db handler = (Raises e, db))
  ∨ (∃ model signature,
       reading = Valid model
       ∧ passed_both_guards now request signature
       ∧ json_endpoint hmac_sha256 encode decode int_of_str VENDOR_HMAC_SECRET
           ALLOWED_IP_NETWORKS reading now request db handler = handler model).
Proof.
  unfold json_endpoint.
  destruct reading as [| | |model]; [left; by eexists..| |];
    destruct (dependencies false now request) as [[]|e] eqn:Hdeps;
    try (left; by eexists).
  right. apply inbound_dependencies_called in Hdeps as [signature Hpassed].
  by exists model, signature.
Qed.

(** On the report and publish endpoints a request is either turned away,
    and then leaves no row in the audit table, or it adds one inbound row
    and is answered with success.  The row holds the document the framework
    read from the body; the signature recorded in it is the digest of the
    request's timestamp and body under the shared secret, its timestamp was
    inside the window, and the address recorded in it passed the
    allowlist. *)
Theorem inbound_rows_passed_both_guards now uuid request db :
  ((∃ e, report_endpoint now uuid request db = (Raises e, db))
   ∨ (∃ report signature response,
        read_report request = Valid report
        ∧ passed_both_guards now request signature
        ∧ report_endpoint now uuid request db
          = (Returns response,
             db ++ [ {| id := uuid;
                        request_id := Some (report_request_id report);
                        direction := str "inbound";
                        message_type := str "report";
                        payload := SeoReport_dict report;
                        hmac_signature := Some signature;
                        ip_address := Some (client_host request);
                        processed := false |} ])))
  ∧ ((∃ e, publish_endpoint now uuid request db = (Raises e, db))
     ∨ (∃ notification signature response,
          read_notification request = Valid notification
          ∧ passed_both_guards now request signature
          ∧ publish_endpoint now uuid request db
            = (Returns response,
               db ++ [ {| id := uuid;
                          request_id := Some (publish_request_id notification);
                          direction := str "inbound";
                          message_type := str "publish";
                          payload := PublishNotification_dict notification;
                          hmac_signature := Some signature;
                          ip_address := Some (client_host request);
                          processed := false |} ]))).
Proof.
  split.
  - unfold receive_seo_report.
    match goal with
    | |- context [json_endpoint _ _ _ _ _ _ ?reading _ _ _ ?handler] =>
        destruct (json_endpoint_outcomes reading now request db handler)
          as [He|(report & signature & Hread & Hpassed & Heq)]
    end; [by left|].
    right. exists report, signature. eexists.
    split; [done|]. split; [done|]. rewrite Heq.
    destruct Hpassed as (? & ? & ? & -> & _). reflexivity.
  - unfold receive_publish_notification.
    match goal with
    | |- context [json_endpoint _ _ _ _ _ _ ?reading _ _ _ ?handler] =>
        destruct (json_endpoint_outcomes reading now request db handler)
          as [He|(notification & signature & Hread & Hpassed & Heq)]
    end; [by left|].
    right. exists notification, signature. eexists.
    split; [done|]. split; [done|]. rewrite Heq.
    destruct Hpassed as (? & ? & ? & -> & _). reflexivity.
Qed.

(** The file endpoint never accepts an upload.  Reading the form consumes
    the request stream, so the signature check, whose first statement reads
    the body, raises when it is called; when it is not called a header is
    missing, and when the body is no form the fields are.  Every request is
    answered with an error and leaves the audit table as it was. *)
Theorem file_endpoint_never_succeeds now uuid request db :
  ∃ e,
    receive_vendor_file hmac_sha256 encode decode int_of_str read_upload
      VENDOR_HMAC_SECRET ALLOWED_IP_NETWORKS now uuid request db
    = (Raises e, db).
Proof.
  unfold receive_vendor_file.
  destruct (read_upload request) as [detail| |fields]; [by eexists|..].
  - destruct (dependencies false now request); by eexists.
  - destruct (dependencies true now request) as [b|e] eqn:Hdeps; [|by eexists].
    apply inbound_dependencies_consumed_returns in Hdeps as ->.
    by eexists.
Qed.
End inbound_more.

(** ** Outbound signature against the inbound check *)

Section round_trip.
Variable hmac_sha256 : pybytes → pybytes → pybytes.
Variable encode : pystr → pybytes.
Variable decode : pybytes → option pystr.
Variable int_of_str : pystr → option Z.
Variable json_dumps : dict → pystr.
Variable client_encode_json : dict → pybytes.
Variables VENDOR_HMAC_SECRET VENDOR_API_KEY VENDOR_API_URL : pystr.

Local Abbreviation verify :=
  (verify_hmac hmac_sha256 encode decode int_of_str VENDOR_HMAC_SECRET).
Local Abbreviation outbound :=
  (vendor_request hmac_sha256 encode json_dumps client_encode_json
     VENDOR_HMAC_SECRET VENDOR_API_KEY VENDOR_API_URL).

(** The relay signs its outbound calls the way it checks inbound ones.  The
    timestamp and signature headers of an outbound call, presented with the
    encoded [json.dumps] text as body, pass [verify_hmac] under the same
    secret at any time within 300 seconds of the call, from any address. *)
Theorem outbound_signature_passes_verify_hmac now now' endpoint data host :
  decode (encode (json_dumps data)) = Some (json_dumps data) →
  int_of_str (str_of_int now) = Some now →
  Z.abs (now' - now) ≤ 300 →
  ∃ timestamp signature,
    get_header (str "X-Timestamp") (headers (outbound now endpoint data))
    = Some timestamp
    ∧ get_header (str "X-Signature") (headers (outbound now endpoint data))
      = Some signature
    ∧ verify now'
        {| client_host := host;
           x_vendor_signature := Some signature;
           x_vendor_timestamp := Some timestamp;
           body := encode (json_dumps data) |}
        signature timestamp
      = Returns true.
Proof.
  intros Hdecode Hint Hage.
  exists (str_of_int now),
    (sign hmac_sha256 encode VENDOR_HMAC_SECRET (str_of_int now) (json_dumps data)).
  split; [reflexivity|]. split; [reflexivity|].
  rewrite (verify_hmac_own_signature _ _ _ _ _ _ _ _ _ (json_dumps data)) by done.
  unfold check_timestamp. rewrite Hint.
  by assert ((Z.abs (now' - now) >? 300) = false) as -> by lia.
Qed.
End round_trip.

Lemma outbound_signature_passes_verify_hmac_witness :
  let data := [(str "request_id", JStr (str "r-1")); (str "priority", JInt 1)] in
  let json_dumps := Ref.json_dumps Ref.no_floats in
  let outbound :=
    vendor_request Ref.hmac_sha256 Ref.encode json_dumps
      (Ref.client_encode_json_default Ref.no_floats)
      (str "dev-secret") (str "dev-api-key")
      (str "https://api.customerscout.com/v1") 1700000000 (str "tasks") data in
  Ref.decode (Ref.encode (json_dumps data)) = Some (json_dumps data)
  ∧ Ref.int_of_str (str_of_int 1700000000) = Some 1700000000
  ∧ Z.abs (1700000300 - 1700000000) ≤ 300
  ∧ ∃ timestamp signature,
      get_header (str "X-Timestamp") (headers outbound) = Some timestamp
      ∧ get_header (str "X-Signature") (headers outbound) = Some signature
      ∧ verify_hmac Ref.hmac_sha256 Ref.encode Ref.decode Ref.int_of_str
          (str "dev-secret") 1700000300
          {| client_host := str "10.0.0.5";
             x_vendor_signature := Some signature;
             x_vendor_timestamp := Some timestamp;
             body := Ref.encode (json_dumps data) |}
          signature timestamp
        = Returns true.
Proof.
  intros data json_dumps outbound.
  assert (Ref.decode (Ref.encode (json_dumps data)) = Some (json_dumps data))
    as Hdecode by (vm_compute; reflexivity).
  assert (Ref.int_of_str (str_of_int 1700000000) = Some 1700000000)
    as Hint by (vm_compute; reflexivity).
  assert (Z.abs (1700000300 - 1700000000) ≤ 300) as Hage by lia.
  split; [exact Hdecode|]. split; [exact Hint|]. split; [exact Hage|].
  exact (outbound_signature_passes_verify_hmac Ref.hmac_sha256 Ref.encode
           Ref.decode Ref.int_of_str json_dumps
           (Ref.client_encode_json_default Ref.no_floats)
           (str "dev-secret") (str "dev-api-key")
           (str "https://api.customerscout.com/v1")
           1700000000 1700000300 (str "tasks") data (str "10.0.0.5")
           Hdecode Hint Hage).
Defined.
